(** * Alarm definitions: validation and rendering

    A shallow embedding of [metaswitch/common/alarms_parser.py] (Python 2)
    and the properties of its validator, loader and renderers.

    Conventions of the embedding.

    - Text is [String.string], a sequence of characters of code 0 to 255.
      Python 2 has two kinds of string, and the program is embedded for
      both.  The definitions at top level take a text for a byte string:
      [len] is [String.length], [lower] and [upper] act on the letters A-Z
      and a-z, [str] of a string is the string itself, and no operation on
      a string fails.  Module [Unicode] has the same functions on the
      values that [json.load] yields, whose strings are unicode objects: a
      text there is the sequence of the code points of the object, and the
      conversion of a unicode object to a byte string, in [str], in
      [str.format] and in the csv writer, raises [UnicodeEncodeError] on a
      character of code 128 or more.  The validator accepts the same
      records in both, except that in [Unicode] the index must be one that
      [str] converts ([Alarm_init_Return]).  The renderer of the table is
      embedded in both; the renderer of the constants and the writer of
      their file in [Unicode] only.  Code points from 256 on are not
      modelled.
    - A record read from JSON is a Rocq record whose fields are [option]s:
      [None] is an absent key, and subscripting it raises [KeyError].  The
      fields carry the types of the input format (text for the text fields,
      a list of level records for [levels]); [index] alone ranges over
      values of other types, since the code never inspects it: null, the
      booleans, the integers and the strings.  Numbers with a fraction,
      arrays and objects are not modelled.
    - Exceptions are values of [exn]; a computation that may raise returns
      a [result].  What [print] writes is kept, line by line, next to the
      result.  The [assert] statements are executed: the interpreter does
      not run with -O.
    - Reading and parsing a file is left to the caller: the loader starts
      from the parsed document.
    - The severity codes of module [alarm_severities], the bound
      [sys.maxint] and the iteration order of a Python 2 [dict] are
      parameters of the development. *)

From Stdlib Require Import String Ascii List ZArith Bool Lia Permutation.
From Stdlib Require Import DecimalString.
From Stdlib Require Decimal DecimalPos DecimalZ.
Import ListNotations.

Local Open Scope string_scope.
Local Open Scope Z_scope.

(** ** Python values and built-ins *)

(** What [alarm['index']] may hold: null, a boolean, an integer or a
    string. *)
Inductive pyvalue : Type :=
| PyNone
| PyBool (b : bool)
| PyInt (n : Z)
| PyStr (s : string).

Definition dquote : ascii := Ascii false true false false false true false false.
Definition squote : ascii := "'"%char.
Definition backslash : ascii := "\"%char.
Definition newline : ascii := "010"%char.

(** [len(s)] *)
Definition len (s : string) : Z := Z.of_nat (String.length s).

(** [str(n)] for an integer: decimal digits, with a minus sign below zero. *)
Definition str_int (n : Z) : string := NilZero.string_of_int (Z.to_int n).

Definition lower_char (c : ascii) : ascii :=
  let n := nat_of_ascii c in
  if ((65 <=? n) && (n <=? 90))%nat then ascii_of_nat (n + 32) else c.

Definition upper_char (c : ascii) : ascii :=
  let n := nat_of_ascii c in
  if ((97 <=? n) && (n <=? 122))%nat then ascii_of_nat (n - 32) else c.

Fixpoint map_string (f : ascii -> ascii) (s : string) : string :=
  match s with
  | EmptyString => EmptyString
  | String c s' => String (f c) (map_string f s')
  end.

(** [s.lower()] and [s.upper()] *)
Definition lower : string -> string := map_string lower_char.
Definition upper : string -> string := map_string upper_char.

Fixpoint contains_char (c : ascii) (s : string) : bool :=
  match s with
  | EmptyString => false
  | String d s' => Ascii.eqb c d || contains_char c s'
  end.

Definition hex_digit (n : nat) : ascii :=
  if (n <? 10)%nat then ascii_of_nat (48 + n) else ascii_of_nat (87 + n).

(** One character of [repr(s)] for a byte string quoted with [quote]. *)
Definition repr_char (quote c : ascii) : string :=
  let n := nat_of_ascii c in
  if Ascii.eqb c quote || Ascii.eqb c backslash then String backslash (String c EmptyString)
  else if (n =? 9)%nat then String backslash "t"
  else if (n =? 10)%nat then String backslash "n"
  else if (n =? 13)%nat then String backslash "r"
  else if ((n <? 32) || (127 <=? n))%nat
       then String backslash
              (String "x" (String (hex_digit (n / 16)) (String (hex_digit (n mod 16)) EmptyString)))
  else String c EmptyString.

Fixpoint repr_chars (quote : ascii) (s : string) : string :=
  match s with
  | EmptyString => EmptyString
  | String c s' => repr_char quote c ++ repr_chars quote s'
  end.

(** [repr(s)] for a byte string: single quotes, unless the string holds a
    single quote and no double quote. *)
Definition repr_str (s : string) : string :=
  let quote :=
    if contains_char squote s && negb (contains_char dquote s) then dquote else squote in
  String quote (repr_chars quote s ++ String quote EmptyString).

(** [str(v)] *)
Definition str (v : pyvalue) : string :=
  match v with
  | PyNone => "None"
  | PyBool true => "True"
  | PyBool false => "False"
  | PyInt n => str_int n
  | PyStr s => s
  end.

(** ** Exceptions and results *)

Inductive exn : Type :=
| KeyError (key : string)
| AssertionError (msg : string).

Inductive result (A : Type) : Type :=
| Ok (a : A)
| Raise (e : exn).

Arguments Ok {A} a.
Arguments Raise {A} e.

Definition bind {A B : Type} (r : result A) (f : A -> result B) : result B :=
  match r with
  | Ok a => f a
  | Raise e => Raise e
  end.

Notation "x <- c1 ;; c2" := (bind c1 (fun x => c2))
  (at level 61, c1 at next level, right associativity).
Notation "c1 ;;; c2" := (bind c1 (fun _ => c2))
  (at level 61, right associativity).

(** [d[key]] on a record read from JSON. *)
Definition getitem {A : Type} (key : string) (field : option A) : result A :=
  match field with
  | Some v => Ok v
  | None => Raise (KeyError key)
  end.

(** [assert cond, msg] *)
Definition assert (cond : bool) (msg : string) : result unit :=
  if cond then Ok tt else Raise (AssertionError msg).

(** [x in l] for a list of strings. *)
Definition str_in (x : string) (l : list string) : bool :=
  existsb (String.eqb x) l.

(** [d[k]] and [k in d.keys()] on a table with string keys. *)
Fixpoint table_get {V : Type} (k : string) (d : list (string * V)) : option V :=
  match d with
  | [] => None
  | (k', v) :: d' => if String.eqb k k' then Some v else table_get k d'
  end.

Definition table_keys {V : Type} (d : list (string * V)) : list string := map fst d.

(** ** Python 2 dictionaries with integer keys

    The entries are kept in insertion order; assigning to a key that is
    present replaces its value in place.  The order in which a hash table
    yields its keys is not the insertion order: it is a parameter of the
    development, see [dict_order] below. *)

Definition pydict (V : Type) : Type := list (Z * V).

Fixpoint dict_setitem {V : Type} (k : Z) (v : V) (d : pydict V) : pydict V :=
  match d with
  | [] => [(k, v)]
  | (k', v') :: d' =>
      if k =? k' then (k, v) :: d' else (k', v') :: dict_setitem k v d'
  end.

Fixpoint dict_get {V : Type} (k : Z) (d : pydict V) : option V :=
  match d with
  | [] => None
  | (k', v) :: d' => if k =? k' then Some v else dict_get k d'
  end.

Definition dict_inserted {V : Type} (d : pydict V) : list Z := map fst d.

(** ** The csv writer

    [csv.writer(output, lineterminator='\n')]: the excel dialect, minimal
    quoting.  A field is read as a C string, so it ends at its first NUL
    byte; it is quoted when it holds the delimiter, the quote character or
    a character of the line terminator, and a quote character is doubled. *)

Fixpoint c_string (s : string) : string :=
  match s with
  | EmptyString => EmptyString
  | String c s' => if Ascii.eqb c zero then EmptyString else String c (c_string s')
  end.

Definition csv_special (c : ascii) : bool :=
  Ascii.eqb c ","%char || Ascii.eqb c dquote || Ascii.eqb c newline.

Fixpoint csv_quoted (s : string) : bool :=
  match s with
  | EmptyString => false
  | String c s' => csv_special c || csv_quoted s'
  end.

Fixpoint csv_data (s : string) : string :=
  match s with
  | EmptyString => EmptyString
  | String c s' =>
      if Ascii.eqb c dquote then String dquote (String dquote (csv_data s'))
      else String c (csv_data s')
  end.

(** One field of a row; [quote_empty] holds for the only field of a row. *)
Definition csv_field (quote_empty : bool) (v : pyvalue) : string :=
  let field := c_string (match v with PyNone => EmptyString | _ => str v end) in
  let quoted :=
    csv_quoted field ||
    (quote_empty && match field with EmptyString => true | _ => false end) in
  if quoted then String dquote (csv_data field ++ String dquote EmptyString)
  else csv_data field.

Fixpoint join (sep : string) (l : list string) : string :=
  match l with
  | [] => EmptyString
  | [x] => x
  | x :: l' => x ++ sep ++ join sep l'
  end.

(** [writer.writerow(row)]: the text appended to the output. *)
Definition writerow (row : list pyvalue) : string :=
  join "," (map (csv_field (Nat.eqb (length row) 1)) row) ++ String newline EmptyString.

(** ** Records read from JSON *)

(** One entry of [alarm['levels']]. *)
Module LevelJSON.
Record t : Type := {
  details : option string;
  description : option string;
  cause : option string;
  effect : option string;
  action : option string;
  extended_details : option string;
  extended_description : option string;
  severity : option string
}.
End LevelJSON.

(** One entry of [alarms_data['alarms']]. *)
Module AlarmJSON.
Record t : Type := {
  name : option string;
  index : option pyvalue;
  cause : option string;
  levels : option (list LevelJSON.t)
}.
End AlarmJSON.

(** A parsed definitions file. *)
Module DocumentJSON.
Record t : Type := {
  alarms : option (list AlarmJSON.t)
}.
End DocumentJSON.

(** ** The objects the validator builds *)

(** The attributes of an [AlarmLevel].  The back-reference [_parent] is left
    out: the constructor reads [_name] and [_index] through it and nothing
    reads it afterwards. *)
Module AlarmLevel.
Record t : Type := {
  _details : string;
  _description : string;
  _cause : string;
  _effect : string;
  _action : string;
  _itu_severity : Z;
  _oid : string;
  _severity_string : string
}.
End AlarmLevel.

Module Alarm.
Record t : Type := {
  _name : string;
  _index : pyvalue;
  _levels : pydict AlarmLevel.t;
  _cause : string
}.

(** [self._levels[k] = v] *)
Definition setitem_levels (self : t) (k : Z) (v : AlarmLevel.t) : t :=
  {| _name := _name self;
     _index := _index self;
     _levels := dict_setitem k v (_levels self);
     _cause := _cause self |}.
End Alarm.

(** Modelled from the spec: module [alarm_severities] is not among the
    sources.  The spec describes it as the fixed, externally supplied table
    of integer ITU severity codes, one per severity name; the six codes are
    taken as they come. *)
Record severity_codes : Type := {
  CLEARED : Z;
  INDETERMINATE : Z;
  CRITICAL : Z;
  MAJOR : Z;
  MINOR : Z;
  WARNING : Z
}.

(** The codes of ITU-T X.733 as the ITU-ALARM-TC-MIB numbers them. *)
Definition itu_alarm_tc : severity_codes :=
  {| CLEARED := 1; INDETERMINATE := 2; CRITICAL := 3;
     MAJOR := 4; MINOR := 5; WARNING := 6 |}.

(** A printing computation: the lines written to standard output, and the
    result. *)
Definition io (A : Type) : Type := (list string * result A)%type.

Definition io_ret {A : Type} (a : A) : io A := ([], Ok a).

Definition io_bind {A B : Type} (m : io A) (f : A -> io B) : io B :=
  match m with
  | (out, Ok a) => let (out', r) := f a in ((out ++ out')%list, r)
  | (out, Raise e) => (out, Raise e)
  end.

Definition io_lift {A : Type} (r : result A) : io A := ([], r).

Notation "x <-- c1 ;; c2" := (io_bind c1 (fun x => c2))
  (at level 61, c1 at next level, right associativity).

(** ** Sample inputs *)

Module Sample.

(** A level record with every mandatory field and the severity given. *)
Definition level (severity : string) : LevelJSON.t :=
  {| LevelJSON.details := Some "The process has failed";
     LevelJSON.description := Some "Process failure";
     LevelJSON.cause := Some "The process crashed";
     LevelJSON.effect := Some "Calls are not processed";
     LevelJSON.action := Some "Restart the process";
     LevelJSON.extended_details := None;
     LevelJSON.extended_description := None;
     LevelJSON.severity := Some severity |}.

(** The same, with both extended fields. *)
Definition extended_level (severity : string) : LevelJSON.t :=
  {| LevelJSON.details := Some "The process has failed";
     LevelJSON.description := Some "Process failure";
     LevelJSON.cause := Some "The process crashed";
     LevelJSON.effect := Some "Calls are not processed";
     LevelJSON.action := Some "Restart the process";
     LevelJSON.extended_details := Some "The process has failed and was not restarted";
     LevelJSON.extended_description := Some "Process failure, no restart";
     LevelJSON.severity := Some severity |}.



Definition alarm_of (index : option pyvalue) (cause : string) (levels : list LevelJSON.t)
  : AlarmJSON.t :=
  {| AlarmJSON.name := Some "process_fail";
     AlarmJSON.index := index;
     AlarmJSON.cause := Some cause;
     AlarmJSON.levels := Some levels |}.

(** Index 1000, one cleared and one critical level. *)
Definition alarm : AlarmJSON.t :=
  alarm_of (Some (PyInt 1000)) "software_error" [level "cleared"; level "critical"].

(** Index 1000, a major and a cleared level. *)
Definition major_alarm : AlarmJSON.t :=
  alarm_of (Some (PyInt 1000)) "Software_Error" [level "MAJOR"; level "cleared"].

(** Two cleared levels and a major one. *)
Definition twice_cleared : AlarmJSON.t :=
  alarm_of (Some (PyInt 1000)) "software_error"
           [level "cleared"; extended_level "Cleared"; level "major"].

(** Two cleared levels and nothing else. *)
Definition only_cleared : AlarmJSON.t :=
  alarm_of (Some (PyInt 1000)) "software_error" [level "cleared"; level "Cleared"].



Definition parent : Alarm.t :=
  {| Alarm._name := "process_fail"; Alarm._index := PyInt 1000;
     Alarm._levels := []; Alarm._cause := "software_error" |}.

Definition document : DocumentJSON.t :=
  {| DocumentJSON.alarms := Some [alarm; major_alarm] |}.



(** A level record without the key severity. *)
Definition level_without_severity : LevelJSON.t :=
  {| LevelJSON.details := Some "The process has failed";
     LevelJSON.description := Some "Process failure";
     LevelJSON.cause := Some "The process crashed";
     LevelJSON.effect := Some "Calls are not processed";
     LevelJSON.action := Some "Restart the process";
     LevelJSON.extended_details := None;
     LevelJSON.extended_description := None;
     LevelJSON.severity := None |}.

(** The second level names no known severity. *)
Definition fatal_alarm : AlarmJSON.t :=
  alarm_of (Some (PyInt 1000)) "software_error"
           [level "cleared"; level "Fatal"; level "major"].

(** The second level lacks a key. *)
Definition keyless_alarm : AlarmJSON.t :=
  alarm_of (Some (PyInt 1000)) "software_error"
           [level "cleared"; level_without_severity; level "major"].

Definition keyless_document : DocumentJSON.t :=
  {| DocumentJSON.alarms := Some [alarm; keyless_alarm] |}.

(** The letter e with an acute accent, U+00E9. *)
Definition e_acute : string := String "233"%char EmptyString.

(** A level record whose details have a character outside ASCII. *)
Definition accented_level (severity : string) : LevelJSON.t :=
  {| LevelJSON.details := Some ("Le processus a " ++ e_acute ++ "chou" ++ e_acute);
     LevelJSON.description := Some "Process failure";
     LevelJSON.cause := Some "The process crashed";
     LevelJSON.effect := Some "Calls are not processed";
     LevelJSON.action := Some "Restart the process";
     LevelJSON.extended_details := None;
     LevelJSON.extended_description := None;
     LevelJSON.severity := Some severity |}.

(** A document that loads, with such a level. *)
Definition accented_document : DocumentJSON.t :=
  {| DocumentJSON.alarms :=
       Some [alarm_of (Some (PyInt 1000)) "software_error"
                      [level "cleared"; accented_level "major"]] |}.

(** A record whose name has a character outside ASCII. *)
Definition accented_alarm : AlarmJSON.t :=
  {| AlarmJSON.name := Some ("caf" ++ e_acute ++ "_fail");
     AlarmJSON.index := Some (PyInt 1000);
     AlarmJSON.cause := Some "software_error";
     AlarmJSON.levels := Some [level "cleared"; level "critical"] |}.

(** [sys.maxint] of a 64-bit build. *)
Definition maxint : Z := 9223372036854775807.

Fixpoint insert_sorted (k : Z) (l : list Z) : list Z :=
  match l with
  | [] => [k]
  | k' :: l' => if k <=? k' then k :: l else k' :: insert_sorted k l'
  end.

(** Keys in ascending order: what a small hash table of small integers
    yields. *)
Definition ascending (ks : list Z) : list Z := fold_right insert_sorted [] ks.

End Sample.

(** [try: body except KeyError: handler] *)
Definition try_except_KeyError {A : Type} (body handler : result A) : result A :=
  match body with
  | Raise (KeyError _) => handler
  | r => r
  end.

(** [d[k]] on a table with string keys. *)
Definition table_getitem {V : Type} (k : string) (d : list (string * V)) : result V :=
  match table_get k d with
  | Some v => Ok v
  | None => Raise (KeyError k)
  end.

(** ** The parser *)

Section AlarmsParser.

(** The constants of module [alarm_severities]. *)
Variable alarm_severities : severity_codes.

(** The order in which a dictionary yields its keys, given the order in which
    they were inserted. *)
Variable dict_order : list Z -> list Z.

Hypothesis dict_order_perm :
  forall ks : list Z, NoDup ks -> Permutation (dict_order ks) ks.

Definition itu_severities : list (string * Z) :=
  [("cleared", CLEARED alarm_severities);
   ("indeterminate", INDETERMINATE alarm_severities);
   ("critical", CRITICAL alarm_severities);
   ("major", MAJOR alarm_severities);
   ("minor", MINOR alarm_severities);
   ("warning", WARNING alarm_severities)].

Definition alarm_model_state : list (string * Z) :=
  [("cleared", 1);
   ("indeterminate", 2);
   ("critical", 6);
   ("major", 5);
   ("minor", 4);
   ("warning", 3)].

Definition full_alarm_oid (oid_fragment : string) : string :=
  "1.3.6.1.2.1.118.1.1.2.1.3.0." ++ oid_fragment.

Definition valid_causes : list string :=
  ["software_error";
   "database_inconsistency";
   "underlying_resource_unavailable"].

(** [d.keys()] and [d.itervalues()]: both walk the table in the same order. *)
Definition dict_keys {V : Type} (d : pydict V) : list Z :=
  dict_order (dict_inserted d).

Definition dict_itervalues {V : Type} (d : pydict V) : list V :=
  flat_map (fun k => match dict_get k d with Some v => [v] | None => [] end)
           (dict_keys d).

(** [AlarmLevel.__init__(self, parent_alarm, level)] *)
Definition AlarmLevel_init (parent_alarm : Alarm.t) (level : LevelJSON.t)
  : result AlarmLevel.t :=
  let name := Alarm._name parent_alarm in
  details <- getitem "details" (LevelJSON.details level) ;;
  assert (len details <? 256)
    ("Details length was greater than 255 characters in alarm " ++ name) ;;;
  description <- getitem "description" (LevelJSON.description level) ;;
  assert (len description <? 256)
    ("Description length was greater than 255 characters in alarm " ++ name) ;;;
  cause <- getitem "cause" (LevelJSON.cause level) ;;
  assert (len cause <? 4096)
    ("Cause length was greater than 4096 characters in alarm " ++ name) ;;;
  effect <- getitem "effect" (LevelJSON.effect level) ;;
  assert (len effect <? 4096)
    ("Effect length was greater than 4096 characters in alarm " ++ name) ;;;
  action <- getitem "action" (LevelJSON.action level) ;;
  assert (len action <? 4096)
    ("Action length was greater than 4096 characters in alarm " ++ name) ;;;
  details <-
    try_except_KeyError
      (extended <- getitem "extended_details" (LevelJSON.extended_details level) ;;
       assert (len extended <? 4096)
         ("Extended details length was greater than 4096 characters in alarm " ++ name) ;;;
       Ok extended)
      (Ok details) ;;
  description <-
    try_except_KeyError
      (extended <- getitem "extended_description" (LevelJSON.extended_description level) ;;
       assert (len extended <? 4096)
         ("Extended description length was greater than 4096 characters in alarm " ++ name) ;;;
       Ok extended)
      (Ok description) ;;
  severity_string <- getitem "severity" (LevelJSON.severity level) ;;
  let severity := lower severity_string in
  assert (str_in severity (table_keys itu_severities))
    ("Severity level (" ++ severity_string ++ ") invalid in alarm " ++ name) ;;;
  itu_severity <- table_getitem severity itu_severities ;;
  model_state <- table_getitem severity alarm_model_state ;;
  Ok {| AlarmLevel._details := details;
        AlarmLevel._description := description;
        AlarmLevel._cause := cause;
        AlarmLevel._effect := effect;
        AlarmLevel._action := action;
        AlarmLevel._itu_severity := itu_severity;
        AlarmLevel._oid := str (Alarm._index parent_alarm) ++ "." ++ str_int model_state;
        AlarmLevel._severity_string := severity_string |}.

(** The loop [for level in alarm['levels']] of [Alarm.__init__]: it threads
    the object under construction and the two flags. *)
Fixpoint for_levels (levels : list LevelJSON.t)
    (self : Alarm.t) (found_cleared found_non_cleared : bool)
  : result (Alarm.t * bool * bool) :=
  match levels with
  | [] => Ok (self, found_cleared, found_non_cleared)
  | level :: rest =>
      level_obj <- AlarmLevel_init self level ;;
      let self := Alarm.setitem_levels self (AlarmLevel._itu_severity level_obj) level_obj in
      if AlarmLevel._itu_severity level_obj =? CLEARED alarm_severities
      then for_levels rest self true found_non_cleared
      else for_levels rest self found_cleared true
  end.

(** The body of the [try] block of [Alarm.__init__]. *)
Definition Alarm_try (alarm : AlarmJSON.t) : result Alarm.t :=
  _name <- getitem "name" (AlarmJSON.name alarm) ;;
  _index <- getitem "index" (AlarmJSON.index alarm) ;;
  cause <- getitem "cause" (AlarmJSON.cause alarm) ;;
  assert (str_in (lower cause) valid_causes)
    ("Cause (" ++ cause ++ ") invalid in alarm " ++ _name) ;;;
  let self := {| Alarm._name := _name; Alarm._index := _index;
                 Alarm._levels := []; Alarm._cause := cause |} in
  levels <- getitem "levels" (AlarmJSON.levels alarm) ;;
  st <- for_levels levels self false false ;;
  let '(self, found_cleared, found_non_cleared) := st in
  assert found_cleared
    ("Alarm " ++ _name ++ " missing a cleared severity") ;;;
  assert found_non_cleared
    ("Alarm " ++ _name ++ " missing any non-cleared severities") ;;;
  Ok self.

(** [Alarm.__init__(self, alarm)]: a [KeyError] is reported on standard
    output and raised again. *)
Definition Alarm_init (alarm : AlarmJSON.t) : io Alarm.t :=
  match Alarm_try alarm with
  | Raise (KeyError key) =>
      (["Invalid JSON format - missing mandatory value " ++ repr_str key],
       Raise (KeyError key))
  | r => io_lift r
  end.

(** The loop [for alarm in alarms] of [parse_alarms_file]. *)
Fixpoint for_alarms (alarms : list AlarmJSON.t) (alarm_list : list Alarm.t)
  : io (list Alarm.t) :=
  match alarms with
  | [] => io_ret alarm_list
  | alarm :: rest =>
      a <-- Alarm_init alarm ;;
      for_alarms rest (alarm_list ++ [a])%list
  end.

(** [parse_alarms_file(json_file)], from the parsed content of the file. *)
Definition parse_alarms_file (alarms_data : DocumentJSON.t) : io (list Alarm.t) :=
  alarms <-- io_lift (getitem "alarms" (DocumentJSON.alarms alarms_data)) ;;
  for_alarms alarms [].

Definition columns : list string :=
  ["OID";
   "ITU_severity";
   "name";
   "cause";
   "severity";
   "description";
   "details";
   "cause";
   "effect";
   "action"].

(** The list [values] written for one level of one alarm. *)
Definition values (alarm : Alarm.t) (alarm_level : AlarmLevel.t) : list pyvalue :=
  [PyStr (AlarmLevel._oid alarm_level);
   PyInt (AlarmLevel._itu_severity alarm_level);
   PyStr (Alarm._name alarm);
   PyStr (Alarm._cause alarm);
   PyStr (AlarmLevel._severity_string alarm_level);
   PyStr (AlarmLevel._description alarm_level);
   PyStr (AlarmLevel._details alarm_level);
   PyStr (AlarmLevel._cause alarm_level);
   PyStr (AlarmLevel._effect alarm_level);
   PyStr (AlarmLevel._action alarm_level)].

(** The two inner loops of [alarms_to_csv], on the text written so far. *)
Fixpoint for_alarm_levels (alarm : Alarm.t) (alarm_levels : list AlarmLevel.t)
    (output : string) : string :=
  match alarm_levels with
  | [] => output
  | alarm_level :: rest =>
      for_alarm_levels alarm rest (output ++ writerow (values alarm alarm_level))
  end.

Fixpoint for_alarm_list (alarm_list : list Alarm.t) (output : string) : string :=
  match alarm_list with
  | [] => output
  | alarm :: rest =>
      for_alarm_list rest
        (for_alarm_levels alarm (dict_itervalues (Alarm._levels alarm)) output)
  end.

(** The loop [for alarm_file in alarms_files]. *)
Fixpoint for_alarms_files (alarms_files : list DocumentJSON.t) (output : string)
  : io string :=
  match alarms_files with
  | [] => io_ret output
  | alarm_file :: rest =>
      alarm_list <-- parse_alarms_file alarm_file ;;
      for_alarms_files rest (for_alarm_list alarm_list output)
  end.

(** [alarms_to_csv(alarms_files)], from the parsed content of the files. *)
Definition alarms_to_csv (alarms_files : list DocumentJSON.t) : io string :=
  let output := EmptyString in
  let output := output ++ writerow (map PyStr columns) in
  for_alarms_files alarms_files output.

(** ** The vocabulary of the specification *)

(** The six severity names. *)
Inductive severity : Type :=
| cleared | indeterminate | critical | major | minor | warning.

Definition severity_of_name (s : string) : option severity :=
  if String.eqb s "cleared" then Some cleared
  else if String.eqb s "indeterminate" then Some indeterminate
  else if String.eqb s "critical" then Some critical
  else if String.eqb s "major" then Some major
  else if String.eqb s "minor" then Some minor
  else if String.eqb s "warning" then Some warning
  else None.

(** The model-state ordinal of a severity, as the specification lists it:
    cleared=1, indeterminate=2, warning=3, minor=4, major=5, critical=6. *)
Definition model_state_ordinal (s : severity) : Z :=
  match s with
  | cleared => 1
  | indeterminate => 2
  | warning => 3
  | minor => 4
  | major => 5
  | critical => 6
  end.

(** The ITU code of a severity. *)
Definition itu_code (s : severity) : Z :=
  match s with
  | cleared => CLEARED alarm_severities
  | indeterminate => INDETERMINATE alarm_severities
  | critical => CRITICAL alarm_severities
  | major => MAJOR alarm_severities
  | minor => MINOR alarm_severities
  | warning => WARNING alarm_severities
  end.

(** No other severity shares the code of cleared. *)
Definition cleared_code_apart : Prop :=
  forall s : severity, itu_code s = itu_code cleared -> s = cleared.

(** The six codes are pairwise distinct. *)
Definition codes_distinct : Prop :=
  forall s s' : severity, itu_code s = itu_code s' -> s = s'.

(** The severity a level record names, if it names one. *)
Definition severity_of_level (level : LevelJSON.t) : option severity :=
  match LevelJSON.severity level with
  | Some s => severity_of_name (lower s)
  | None => None
  end.

(** A mandatory text field is present and shorter than [bound]. *)
Definition present_below (bound : Z) (field : option string) : bool :=
  match field with
  | Some s => len s <? bound
  | None => false
  end.

(** An optional text field is absent, or shorter than [bound]. *)
Definition absent_or_below (bound : Z) (field : option string) : bool :=
  match field with
  | Some s => len s <? bound
  | None => true
  end.

(** The requirements of the data model on one level record. *)
Definition level_valid (level : LevelJSON.t) : bool :=
  present_below 256 (LevelJSON.details level) &&
  present_below 256 (LevelJSON.description level) &&
  present_below 4096 (LevelJSON.cause level) &&
  present_below 4096 (LevelJSON.effect level) &&
  present_below 4096 (LevelJSON.action level) &&
  absent_or_below 4096 (LevelJSON.extended_details level) &&
  absent_or_below 4096 (LevelJSON.extended_description level) &&
  match severity_of_level level with Some _ => true | None => false end.

(** The value of a field that an extended field may override. *)
Definition effective (base : string) (extended : option string) : string :=
  match extended with
  | Some x => x
  | None => base
  end.

Definition text (field : option string) : string :=
  match field with
  | Some s => s
  | None => EmptyString
  end.

(** The Level the data model describes for a level record of severity [sev]
    in an alarm of index [index]. *)
Definition level_object (index : pyvalue) (level : LevelJSON.t) (sev : severity)
  : AlarmLevel.t :=
  {| AlarmLevel._details :=
       effective (text (LevelJSON.details level)) (LevelJSON.extended_details level);
     AlarmLevel._description :=
       effective (text (LevelJSON.description level)) (LevelJSON.extended_description level);
     AlarmLevel._cause := text (LevelJSON.cause level);
     AlarmLevel._effect := text (LevelJSON.effect level);
     AlarmLevel._action := text (LevelJSON.action level);
     AlarmLevel._itu_severity := itu_code sev;
     AlarmLevel._oid := str index ++ "." ++ str_int (model_state_ordinal sev);
     AlarmLevel._severity_string := text (LevelJSON.severity level) |}.

(** [mapM] in [result]: the first failure ends the traversal. *)
Fixpoint traverse {A B : Type} (f : A -> result B) (l : list A) : result (list B) :=
  match l with
  | [] => Ok []
  | x :: l' => y <- f x ;; ys <- traverse f l' ;; Ok (y :: ys)
  end.

(** A level object carries the code of cleared. *)
Definition is_cleared (level_obj : AlarmLevel.t) : bool :=
  AlarmLevel._itu_severity level_obj =? CLEARED alarm_severities.

(** The alarm after the assignments [self._levels[code] = level_obj], in
    order. *)
Definition add_levels (self : Alarm.t) (objs : list AlarmLevel.t) : Alarm.t :=
  fold_left
    (fun self level_obj =>
       Alarm.setitem_levels self (AlarmLevel._itu_severity level_obj) level_obj)
    objs self.



Definition missing_cleared_message (name : string) : string :=
  "Alarm " ++ name ++ " missing a cleared severity".

Definition missing_non_cleared_message (name : string) : string :=
  "Alarm " ++ name ++ " missing any non-cleared severities".


(** The object under construction when the loop over the levels starts. *)
Definition initial_alarm (name : string) (index : pyvalue) (cause : string) : Alarm.t :=
  {| Alarm._name := name; Alarm._index := index;
     Alarm._levels := []; Alarm._cause := cause |}.

(** The last level object of a list that is stored under [code]. *)
Fixpoint last_with_code (code : Z) (objs : list AlarmLevel.t) : option AlarmLevel.t :=
  match objs with
  | [] => None
  | o :: rest =>
      match last_with_code code rest with
      | Some o' => Some o'
      | None => if AlarmLevel._itu_severity o =? code then Some o else None
      end
  end.

(** The level objects built for a list of level records that name a
    severity. *)
Definition level_objects (index : pyvalue) (levels : list LevelJSON.t) : list AlarmLevel.t :=
  flat_map
    (fun level =>
       match severity_of_level level with
       | Some sev => [level_object index level sev]
       | None => []
       end)
    levels.

(** The level record names the severity cleared. *)
Definition names_cleared (level : LevelJSON.t) : bool :=
  match severity_of_level level with
  | Some cleared => true
  | _ => false
  end.

(** The last level record of a list that names the severity cleared. *)
Fixpoint last_cleared (levels : list LevelJSON.t) : option LevelJSON.t :=
  match levels with
  | [] => None
  | level :: rest =>
      match last_cleared rest with
      | Some l => Some l
      | None => if names_cleared level then Some level else None
      end
  end.

(** The level record with its base details, or description, replaced. *)
Definition with_details (d : string) (level : LevelJSON.t) : LevelJSON.t :=
  {| LevelJSON.details := Some d;
     LevelJSON.description := LevelJSON.description level;
     LevelJSON.cause := LevelJSON.cause level;
     LevelJSON.effect := LevelJSON.effect level;
     LevelJSON.action := LevelJSON.action level;
     LevelJSON.extended_details := LevelJSON.extended_details level;
     LevelJSON.extended_description := LevelJSON.extended_description level;
     LevelJSON.severity := LevelJSON.severity level |}.

Definition with_description (d : string) (level : LevelJSON.t) : LevelJSON.t :=
  {| LevelJSON.details := LevelJSON.details level;
     LevelJSON.description := Some d;
     LevelJSON.cause := LevelJSON.cause level;
     LevelJSON.effect := LevelJSON.effect level;
     LevelJSON.action := LevelJSON.action level;
     LevelJSON.extended_details := LevelJSON.extended_details level;
     LevelJSON.extended_description := LevelJSON.extended_description level;
     LevelJSON.severity := LevelJSON.severity level |}.





(** The concatenation of a list of pieces of text. *)
Definition text_of (pieces : list string) : string :=
  fold_right append EmptyString pieces.

(** The rows of the table, one per level of each alarm, in the order the
    loops of [alarms_to_csv] visit them. *)
Definition csv_rows (alarm_list : list Alarm.t) : list (list pyvalue) :=
  flat_map
    (fun alarm => map (values alarm) (dict_itervalues (Alarm._levels alarm)))
    alarm_list.

(** The alarm record with its index replaced, or removed. *)
Definition with_index (index : option pyvalue) (alarm : AlarmJSON.t) : AlarmJSON.t :=
  {| AlarmJSON.name := AlarmJSON.name alarm;
     AlarmJSON.index := index;
     AlarmJSON.cause := AlarmJSON.cause alarm;
     AlarmJSON.levels := AlarmJSON.levels alarm |}.



Definition severity_eqb (s s' : severity) : bool :=
  match s, s' with
  | cleared, cleared | indeterminate, indeterminate | critical, critical
  | major, major | minor, minor | warning, warning => true
  | _, _ => false
  end.

(** The level record names the severity [sev]. *)
Definition names_severity (sev : severity) (level : LevelJSON.t) : bool :=
  match severity_of_level level with
  | Some s => severity_eqb s sev
  | None => false
  end.

(** The last level record of a list that names the severity [sev]. *)
Fixpoint last_naming (sev : severity) (levels : list LevelJSON.t) : option LevelJSON.t :=
  match levels with
  | [] => None
  | level :: rest =>
      match last_naming sev rest with
      | Some l => Some l
      | None => if names_severity sev level then Some level else None
      end
  end.

(** The line printed for a missing key. *)
Definition missing_value_line (key : string) : string :=
  "Invalid JSON format - missing mandatory value " ++ repr_str key.

(** What is printed for an exception that leaves [Alarm.__init__]. *)
Definition printed_for (e : exn) : list string :=
  match e with
  | KeyError key => [missing_value_line key]
  | AssertionError _ => []
  end.

(** The header row of the table, as written. *)
Definition header_text : string := writerow (map PyStr columns).

(** The number of newline characters of a text. *)
Fixpoint count_newlines (s : string) : nat :=
  match s with
  | EmptyString => O
  | String c s' => (if Ascii.eqb c newline then 1 else 0) + count_newlines s'
  end.

(** The text ends with a newline character. *)
Fixpoint ends_with_newline (s : string) : bool :=
  match s with
  | EmptyString => false
  | String c EmptyString => Ascii.eqb c newline
  | String _ s' => ends_with_newline s'
  end.

(** ** Facts about the tables *)

Lemma table_get_itu_severities (n : string) :
  table_get n itu_severities = option_map itu_code (severity_of_name n).
Proof.
  unfold itu_severities, severity_of_name; simpl.
  repeat match goal with
         | |- context [String.eqb n ?k] => destruct (String.eqb n k)
         end; reflexivity.
Qed.

Lemma table_get_alarm_model_state (n : string) :
  table_get n alarm_model_state = option_map model_state_ordinal (severity_of_name n).
Proof.
  unfold alarm_model_state, severity_of_name; simpl.
  repeat match goal with
         | |- context [String.eqb n ?k] => destruct (String.eqb n k)
         end; reflexivity.
Qed.

Lemma str_in_itu_severities (n : string) :
  str_in n (table_keys itu_severities) =
  match severity_of_name n with Some _ => true | None => false end.
Proof.
  unfold itu_severities, severity_of_name, str_in; simpl.
  repeat match goal with
         | |- context [String.eqb n ?k] => destruct (String.eqb n k)
         end; reflexivity.
Qed.

Lemma codes_distinct_apart : codes_distinct -> cleared_code_apart.
Proof. intros H s; apply H. Qed.

(** ** The level validator *)

Ltac case_scrutinee t :=
  lazymatch t with
  | context [match ?x with _ => _ end] => case_scrutinee x
  | _ => destruct t eqn:?
  end.

Ltac simpl_tables_in H :=
  cbn -[table_get str_in table_keys itu_severities alarm_model_state
        severity_of_name Z.ltb len lower] in H;
  rewrite ?table_get_itu_severities, ?table_get_alarm_model_state,
    ?str_in_itu_severities in H.

Ltac step_in H :=
  match type of H with
  | context [match ?x with _ => _ end] => case_scrutinee x
  end; simpl_tables_in H; try discriminate H.

Ltac unfold_level_init :=
  unfold AlarmLevel_init, bind, getitem, assert, try_except_KeyError, table_getitem.

(** The constructor succeeds exactly on the level records the data model
    allows, and builds the Level the data model describes. *)
Lemma AlarmLevel_init_Ok (parent_alarm : Alarm.t) (level : LevelJSON.t) (L : AlarmLevel.t) :
  AlarmLevel_init parent_alarm level = Ok L <->
  level_valid level = true /\
  exists sev, severity_of_level level = Some sev /\
              L = level_object (Alarm._index parent_alarm) level sev.
Proof.
  unfold level_valid, level_object, severity_of_level, present_below, absent_or_below.
  destruct level as [d de c e a xd xde s].
  split.
  - unfold_level_init. intro H. simpl_tables_in H.
    repeat step_in H.
    all: injection H as <-; cbn -[Z.ltb len lower severity_of_name].
    all: repeat match goal with Hb : _ = _ |- _ => rewrite Hb end.
    all: split; [reflexivity | eexists; split; reflexivity].
  - cbn -[Z.ltb len lower severity_of_name].
    intros [Hv [sev [Hs ->]]]. unfold_level_init.
    cbn -[table_get str_in table_keys itu_severities alarm_model_state
          severity_of_name Z.ltb len lower].
    destruct d as [d|]; [|discriminate Hv].
    destruct (len d <? 256); [|discriminate Hv].
    destruct de as [de|]; [|discriminate Hv].
    destruct (len de <? 256); [|discriminate Hv].
    destruct c as [c|]; [|discriminate Hv].
    destruct (len c <? 4096); [|discriminate Hv].
    destruct e as [e|]; [|discriminate Hv].
    destruct (len e <? 4096); [|discriminate Hv].
    destruct a as [a|]; [|discriminate Hv].
    destruct (len a <? 4096); [|discriminate Hv].
    destruct s as [s|]; [|discriminate Hs].
    destruct xd as [xd|]; cbn -[Z.ltb len lower severity_of_name] in Hv;
      [destruct (len xd <? 4096); [|discriminate Hv]|];
      (destruct xde as [xde|]; cbn -[Z.ltb len lower severity_of_name] in Hv;
       [destruct (len xde <? 4096); [|discriminate Hv]|]);
      cbn -[table_get str_in table_keys itu_severities alarm_model_state
            severity_of_name Z.ltb len lower];
      rewrite ?table_get_itu_severities, ?table_get_alarm_model_state,
        ?str_in_itu_severities, Hs; reflexivity.
Qed.

(** The constructor reads its parent through [_name] and [_index] only. *)
Lemma AlarmLevel_init_parent (p p' : Alarm.t) (level : LevelJSON.t) :
  Alarm._name p = Alarm._name p' ->
  Alarm._index p = Alarm._index p' ->
  AlarmLevel_init p level = AlarmLevel_init p' level.
Proof.
  intros Hn Hi. unfold AlarmLevel_init. rewrite Hn, Hi. reflexivity.
Qed.


Lemma traverse_ext {A B : Type} (f g : A -> result B) (l : list A) :
  (forall x, f x = g x) -> traverse f l = traverse g l.
Proof.
  intro H. induction l as [|x l IH]; cbn; [reflexivity|].
  rewrite H, IH. reflexivity.
Qed.

Lemma traverse_Ok {A B : Type} (f : A -> result B) (l : list A) (ys : list B) :
  traverse f l = Ok ys <-> Forall2 (fun x y => f x = Ok y) l ys.
Proof.
  revert ys. induction l as [|x l IH]; intro ys; cbn.
  - split.
    + intro H. injection H as <-. constructor.
    + intro H. inversion H. reflexivity.
  - split.
    + destruct (f x) as [y|e] eqn:Hx; cbn; [|discriminate].
      destruct (traverse f l) as [ys'|e]; cbn; [|discriminate].
      intro H. injection H as <-. constructor; [assumption|]. apply IH. reflexivity.
    + intro H. inversion H as [|x' y l' ys' Hx Hl]; subst.
      rewrite Hx. cbn. apply IH in Hl. rewrite Hl. reflexivity.
Qed.

(** The traversal fails with the error of the first element that fails. *)
Lemma traverse_Raise {A B : Type} (f : A -> result B) (l : list A) (e : exn) :
  traverse f l = Raise e <->
  exists pre x post ys,
    l = (pre ++ x :: post)%list /\ Forall2 (fun x y => f x = Ok y) pre ys /\ f x = Raise e.
Proof.
  induction l as [|x l IH]; cbn.
  - split; [discriminate|].
    intros (pre & x & post & ys & H & _). destruct pre; discriminate H.
  - split.
    + destruct (f x) as [y|e'] eqn:Hx; cbn.
      * destruct (traverse f l) as [ys'|e'] eqn:Hl; cbn; [discriminate|].
        intro H. injection H as ->.
        destruct (proj1 IH eq_refl) as (pre & x' & post & ys & -> & Hpre & Hx').
        exists (x :: pre), x', post, (y :: ys).
        split; [reflexivity|]. split; [constructor; assumption | assumption].
      * intro H. injection H as ->.
        exists [], x, l, []. split; [reflexivity|]. split; [constructor | assumption].
    + intros (pre & x' & post & ys & Hl & Hpre & Hx').
      destruct pre as [|x0 pre].
      * cbn in Hl. injection Hl as <- <-. rewrite Hx'. reflexivity.
      * cbn in Hl. injection Hl as <- ->.
        inversion Hpre as [|? y ? ys' Hx0 Hpre']; subst.
        rewrite Hx0. cbn.
        assert (Hr : traverse f (pre ++ x' :: post) = Raise e).
        { apply IH. exists pre, x', post, ys'. auto. }
        rewrite Hr. reflexivity.
Qed.


Lemma add_levels_index (self : Alarm.t) (objs : list AlarmLevel.t) :
  Alarm._index (add_levels self objs) = Alarm._index self.
Proof.
  revert self. induction objs as [|o objs IH]; intro self; cbn; [reflexivity|].
  unfold add_levels in IH. rewrite IH. reflexivity.
Qed.


(** The loop over the levels, as a traversal followed by the assignments. *)
Lemma for_levels_traverse (levels : list LevelJSON.t) (self : Alarm.t) (fc fnc : bool) :
  for_levels levels self fc fnc =
  (objs <- traverse (AlarmLevel_init self) levels ;;
   Ok (add_levels self objs,
       fc || existsb is_cleared objs,
       fnc || existsb (fun o => negb (is_cleared o)) objs)).
Proof.
  revert self fc fnc. induction levels as [|level rest IH]; intros self fc fnc.
  - cbn. rewrite !orb_false_r. reflexivity.
  - cbn [for_levels traverse].
    destruct (AlarmLevel_init self level) as [o|e] eqn:Ho; cbn [bind]; [|reflexivity].
    set (self' := Alarm.setitem_levels self (AlarmLevel._itu_severity o) o).
    assert (Hext : traverse (AlarmLevel_init self') rest =
                   traverse (AlarmLevel_init self) rest).
    { apply traverse_ext. intro x. apply AlarmLevel_init_parent; reflexivity. }
    fold (is_cleared o).
    destruct (is_cleared o) eqn:Hc; rewrite IH, Hext;
      destruct (traverse (AlarmLevel_init self) rest) as [objs|e]; cbn [bind];
        try reflexivity; cbn [existsb add_levels fold_left]; rewrite Hc; cbn [negb];
          rewrite ?orb_true_r, ?orb_false_l, ?orb_true_l; reflexivity.
Qed.

(** ** Dictionaries *)

Lemma dict_get_setitem {V : Type} (k k' : Z) (v : V) (d : pydict V) :
  dict_get k (dict_setitem k' v d) = if k =? k' then Some v else dict_get k d.
Proof.
  induction d as [|[k0 v0] d IH]; cbn; [reflexivity|].
  destruct (Z.eqb_spec k' k0) as [->|Hne]; cbn.
  - destruct (k =? k0); reflexivity.
  - rewrite IH.
    destruct (Z.eqb_spec k k0) as [->|Hne']; [|reflexivity].
    destruct (Z.eqb_spec k0 k'); [congruence | reflexivity].
Qed.

Lemma dict_setitem_keys {V : Type} (k k' : Z) (v : V) (d : pydict V) :
  In k (dict_inserted (dict_setitem k' v d)) <-> k = k' \/ In k (dict_inserted d).
Proof.
  unfold dict_inserted.
  induction d as [|[k0 v0] d IH]; cbn.
  - intuition congruence.
  - destruct (Z.eqb_spec k' k0) as [->|Hne]; cbn.
    + intuition congruence.
    + rewrite IH. intuition congruence.
Qed.

Lemma dict_setitem_NoDup {V : Type} (k : Z) (v : V) (d : pydict V) :
  NoDup (dict_inserted d) -> NoDup (dict_inserted (dict_setitem k v d)).
Proof.
  unfold dict_inserted.
  induction d as [|[k0 v0] d IH]; cbn; intro H.
  - constructor; [intros [] | constructor].
  - inversion H as [|? ? Hnin Hnd]; subst.
    destruct (Z.eqb_spec k k0) as [->|Hne]; cbn.
    + constructor; assumption.
    + constructor; [|apply IH; assumption].
      intro Hin. apply (dict_setitem_keys k0 k v d) in Hin.
      destruct Hin as [Heq|Hin]; [congruence | contradiction].
Qed.

Lemma dict_setitem_entry {V : Type} (k k' : Z) (v v' : V) (d : pydict V) :
  In (k, v) (dict_setitem k' v' d) -> (k = k' /\ v = v') \/ In (k, v) d.
Proof.
  induction d as [|[k0 v0] d IH]; cbn.
  - intros [H|[]]. injection H as <- <-. left; split; reflexivity.
  - destruct (Z.eqb_spec k' k0) as [->|Hne]; cbn.
    + intros [H|H]; [injection H as <- <-; left; split; reflexivity | right; right; exact H].
    + intros [H|H]; [right; left; exact H|].
      destruct (IH H) as [Heq|Hin]; [left; exact Heq | right; right; exact Hin].
Qed.

Lemma dict_get_In {V : Type} (k : Z) (v : V) (d : pydict V) :
  dict_get k d = Some v -> In (k, v) d.
Proof.
  induction d as [|[k0 v0] d IH]; cbn; [discriminate|].
  destruct (Z.eqb_spec k k0) as [->|Hne].
  - intro H. injection H as <-. left; reflexivity.
  - intro H. right. apply IH, H.
Qed.

Lemma dict_In_get {V : Type} (k : Z) (v : V) (d : pydict V) :
  NoDup (dict_inserted d) -> In (k, v) d -> dict_get k d = Some v.
Proof.
  unfold dict_inserted.
  induction d as [|[k0 v0] d IH]; cbn; [intros _ []|].
  intros Hnd [H|H]; inversion Hnd as [|? ? Hnin Hnd']; subst.
  - injection H as <- <-. rewrite Z.eqb_refl. reflexivity.
  - destruct (Z.eqb_spec k k0) as [->|Hne]; [|apply IH; assumption].
    exfalso. apply Hnin. apply (in_map fst) in H. exact H.
Qed.

(** The values come out once each when the keys are distinct. *)
Lemma dict_itervalues_perm {V : Type} (d : pydict V) :
  NoDup (dict_inserted d) -> Permutation (dict_itervalues d) (map snd d).
Proof.
  intro Hnd. unfold dict_itervalues, dict_keys.
  set (g := fun k => match dict_get k d with Some v => [v] | None => [] end).
  assert (Hperm : Permutation (flat_map g (dict_order (dict_inserted d)))
                              (flat_map g (dict_inserted d))).
  { apply Permutation_flat_map, dict_order_perm, Hnd. }
  etransitivity; [exact Hperm|].
  assert (Heq : forall d' : pydict V,
             (forall k v, In (k, v) d' -> dict_get k d = Some v) ->
             flat_map g (dict_inserted d') = map snd d').
  { induction d' as [|[k v] d' IH]; intro H; cbn; [reflexivity|].
    unfold g at 1. rewrite (H k v (or_introl eq_refl)). cbn.
    f_equal. apply IH. intros k' v' Hin. apply H. right; exact Hin. }
  rewrite Heq; [reflexivity|].
  intros k v Hin. apply dict_In_get; assumption.
Qed.

(** ** The alarm validator *)

Lemma add_levels_cons (self : Alarm.t) (o : AlarmLevel.t) (objs : list AlarmLevel.t) :
  add_levels self (o :: objs) =
  add_levels (Alarm.setitem_levels self (AlarmLevel._itu_severity o) o) objs.
Proof. reflexivity. Qed.

Lemma add_levels_entry (self : Alarm.t) (objs : list AlarmLevel.t) (k : Z) (L : AlarmLevel.t) :
  In (k, L) (Alarm._levels (add_levels self objs)) ->
  In (k, L) (Alarm._levels self) \/ (In L objs /\ k = AlarmLevel._itu_severity L).
Proof.
  revert self. induction objs as [|o objs IH]; intro self.
  - cbn. auto.
  - rewrite add_levels_cons. intro H. destruct (IH _ H) as [Hin|[Hin Hk]].
    + cbn in Hin. apply dict_setitem_entry in Hin.
      destruct Hin as [[-> ->]|Hin]; [right; split; [left|]; reflexivity | left; exact Hin].
    + right. split; [right; exact Hin | exact Hk].
Qed.

Lemma add_levels_NoDup (self : Alarm.t) (objs : list AlarmLevel.t) :
  NoDup (dict_inserted (Alarm._levels self)) ->
  NoDup (dict_inserted (Alarm._levels (add_levels self objs))).
Proof.
  revert self. induction objs as [|o objs IH]; intros self H; [exact H|].
  rewrite add_levels_cons. apply IH. cbn. apply dict_setitem_NoDup, H.
Qed.

Lemma add_levels_keys (self : Alarm.t) (objs : list AlarmLevel.t) (k : Z) :
  In k (dict_inserted (Alarm._levels (add_levels self objs))) <->
  In k (dict_inserted (Alarm._levels self)) \/ In k (map AlarmLevel._itu_severity objs).
Proof.
  revert self. induction objs as [|o objs IH]; intro self.
  - cbn. tauto.
  - rewrite add_levels_cons, IH. cbn [Alarm.setitem_levels Alarm._levels map In].
    rewrite dict_setitem_keys. intuition congruence.
Qed.

Lemma add_levels_get (self : Alarm.t) (objs : list AlarmLevel.t) (k : Z) :
  dict_get k (Alarm._levels (add_levels self objs)) =
  match last_with_code k objs with
  | Some o => Some o
  | None => dict_get k (Alarm._levels self)
  end.
Proof.
  revert self. induction objs as [|o objs IH]; intro self; [reflexivity|].
  rewrite add_levels_cons, IH. cbn [last_with_code].
  destruct (last_with_code k objs); [reflexivity|].
  cbn [Alarm.setitem_levels Alarm._levels]. rewrite dict_get_setitem.
  rewrite (Z.eqb_sym k). destruct (AlarmLevel._itu_severity o =? k); reflexivity.
Qed.

(** The validator on a record whose four keys are present and whose cause
    is in the enumeration. *)
Lemma Alarm_try_levels (alarm : AlarmJSON.t) (n : string) (i : pyvalue) (c : string)
    (lvs : list LevelJSON.t) :
  AlarmJSON.name alarm = Some n ->
  AlarmJSON.index alarm = Some i ->
  AlarmJSON.cause alarm = Some c ->
  str_in (lower c) valid_causes = true ->
  AlarmJSON.levels alarm = Some lvs ->
  Alarm_try alarm =
  (objs <- traverse (AlarmLevel_init (initial_alarm n i c)) lvs ;;
   assert (existsb is_cleared objs) (missing_cleared_message n) ;;;
   assert (existsb (fun o => negb (is_cleared o)) objs) (missing_non_cleared_message n) ;;;
   Ok (add_levels (initial_alarm n i c) objs)).
Proof.
  intros Hn Hi Hc Hv Hl. unfold Alarm_try. rewrite Hn, Hi, Hc, Hl. cbn [getitem bind].
  rewrite Hv. cbn [assert bind]. rewrite for_levels_traverse.
  fold (initial_alarm n i c).
  destruct (traverse (AlarmLevel_init (initial_alarm n i c)) lvs); reflexivity.
Qed.

Lemma Alarm_try_Ok (alarm : AlarmJSON.t) (a : Alarm.t) :
  Alarm_try alarm = Ok a ->
  exists n i c lvs objs,
    AlarmJSON.name alarm = Some n /\
    AlarmJSON.index alarm = Some i /\
    AlarmJSON.cause alarm = Some c /\
    str_in (lower c) valid_causes = true /\
    AlarmJSON.levels alarm = Some lvs /\
    traverse (AlarmLevel_init (initial_alarm n i c)) lvs = Ok objs /\
    existsb is_cleared objs = true /\
    existsb (fun o => negb (is_cleared o)) objs = true /\
    a = add_levels (initial_alarm n i c) objs.
Proof.
  intro H. unfold Alarm_try in H.
  destruct (AlarmJSON.name alarm) as [n|] eqn:Hn; cbn [getitem bind] in H; [|discriminate H].
  destruct (AlarmJSON.index alarm) as [i|] eqn:Hi; cbn [getitem bind] in H; [|discriminate H].
  destruct (AlarmJSON.cause alarm) as [c|] eqn:Hc; cbn [getitem bind] in H; [|discriminate H].
  destruct (str_in (lower c) valid_causes) eqn:Hv; cbn [assert bind] in H; [|discriminate H].
  destruct (AlarmJSON.levels alarm) as [lvs|] eqn:Hl; cbn [getitem bind] in H; [|discriminate H].
  rewrite for_levels_traverse in H. fold (initial_alarm n i c) in H.
  destruct (traverse (AlarmLevel_init (initial_alarm n i c)) lvs) as [objs|e] eqn:Ht;
    [|discriminate H].
  cbn [bind] in H.
  destruct (existsb is_cleared objs) eqn:Hfc; [|discriminate H].
  destruct (existsb (fun o => negb (is_cleared o)) objs) eqn:Hfnc; [|discriminate H].
  cbn in H. injection H as <-.
  exists n, i, c, lvs, objs. repeat split; assumption.
Qed.

Lemma Alarm_init_Ok (alarm : AlarmJSON.t) (out : list string) (a : Alarm.t) :
  Alarm_init alarm = (out, Ok a) <-> out = [] /\ Alarm_try alarm = Ok a.
Proof.
  unfold Alarm_init, io_lift.
  destruct (Alarm_try alarm) as [a'|[key|msg]]; split.
  - intro H. injection H as <- <-. split; reflexivity.
  - intros [-> H]. rewrite H. reflexivity.
  - discriminate.
  - intros [_ H]. discriminate H.
  - discriminate.
  - intros [_ H]. discriminate H.
Qed.

Lemma Alarm_init_AssertionError (alarm : AlarmJSON.t) (msg : string) :
  Alarm_try alarm = Raise (AssertionError msg) ->
  Alarm_init alarm = ([], Raise (AssertionError msg)).
Proof. intro H. unfold Alarm_init. rewrite H. reflexivity. Qed.

Lemma traverse_valid_levels (p : Alarm.t) (lvs : list LevelJSON.t) :
  forallb level_valid lvs = true ->
  traverse (AlarmLevel_init p) lvs = Ok (level_objects (Alarm._index p) lvs).
Proof.
  induction lvs as [|lv lvs IH]; cbn [forallb traverse level_objects flat_map];
    [reflexivity|].
  intro H. apply andb_true_iff in H. destruct H as [Hv Hrest].
  assert (Hsev : exists sev, severity_of_level lv = Some sev).
  { unfold level_valid in Hv. destruct (severity_of_level lv) as [sev|]; [eauto|].
    rewrite andb_false_r in Hv. discriminate Hv. }
  destruct Hsev as [sev Hsev]. rewrite Hsev.
  assert (Hok : AlarmLevel_init p lv = Ok (level_object (Alarm._index p) lv sev)).
  { apply AlarmLevel_init_Ok. split; [exact Hv|]. exists sev. split; [exact Hsev | reflexivity]. }
  rewrite Hok. cbn [bind]. rewrite (IH Hrest). reflexivity.
Qed.

(** Every object of a successful traversal is the Level of a record of the
    list. *)
Lemma traverse_objects (p : Alarm.t) (lvs : list LevelJSON.t) (objs : list AlarmLevel.t) :
  traverse (AlarmLevel_init p) lvs = Ok objs ->
  forallb level_valid lvs = true /\ objs = level_objects (Alarm._index p) lvs.
Proof.
  revert objs. induction lvs as [|lv lvs IH]; intros objs H.
  - cbn in H. injection H as <-. split; reflexivity.
  - cbn [traverse] in H.
    destruct (AlarmLevel_init p lv) as [o|e] eqn:Ho; [|discriminate H].
    cbn [bind] in H.
    destruct (traverse (AlarmLevel_init p) lvs) as [os|e] eqn:Hos; [|discriminate H].
    cbn in H. injection H as <-.
    destruct (IH os eq_refl) as [Hv ->].
    apply AlarmLevel_init_Ok in Ho. destruct Ho as [Hlv [sev [Hsev ->]]].
    cbn [forallb level_objects flat_map]. rewrite Hlv, Hv, Hsev. split; reflexivity.
Qed.

Lemma level_objects_In (index : pyvalue) (lvs : list LevelJSON.t) (L : AlarmLevel.t) :
  In L (level_objects index lvs) <->
  exists lv sev, In lv lvs /\ severity_of_level lv = Some sev /\
                 L = level_object index lv sev.
Proof.
  unfold level_objects. rewrite in_flat_map. split.
  - intros [lv [Hin HL]]. destruct (severity_of_level lv) as [sev|] eqn:Hs; [|destruct HL].
    destruct HL as [<-|[]]. exists lv, sev. auto.
  - intros (lv & sev & Hin & Hs & ->). exists lv. split; [exact Hin|].
    rewrite Hs. left; reflexivity.
Qed.

(** ** Severities of the levels of a record *)

Lemma is_cleared_level_object (index : pyvalue) (lv : LevelJSON.t) (sev : severity) :
  cleared_code_apart ->
  severity_of_level lv = Some sev ->
  is_cleared (level_object index lv sev) = names_cleared lv.
Proof.
  intros Hap Hs. unfold is_cleared, names_cleared. rewrite Hs. cbn.
  destruct (Z.eqb_spec (itu_code sev) (CLEARED alarm_severities)) as [Heq|Hne].
  - rewrite (Hap sev Heq). reflexivity.
  - destruct sev; try reflexivity. exfalso. apply Hne. reflexivity.
Qed.

Lemma names_cleared_is_cleared (index : pyvalue) (lv : LevelJSON.t) (sev : severity) :
  severity_of_level lv = Some sev ->
  names_cleared lv = true ->
  is_cleared (level_object index lv sev) = true.
Proof.
  intros Hs Hc. unfold names_cleared in Hc. rewrite Hs in Hc.
  destruct sev; try discriminate Hc. unfold is_cleared. cbn. apply Z.eqb_refl.
Qed.

Lemma level_valid_severity (lv : LevelJSON.t) :
  level_valid lv = true -> exists sev, severity_of_level lv = Some sev.
Proof.
  unfold level_valid. destruct (severity_of_level lv) as [sev|]; [eauto|].
  rewrite andb_false_r. discriminate.
Qed.

(** On records that all name the severity cleared, every object is cleared. *)
Lemma level_objects_all_cleared (index : pyvalue) (lvs : list LevelJSON.t) :
  forallb level_valid lvs = true ->
  forallb names_cleared lvs = true ->
  existsb (fun o => negb (is_cleared o)) (level_objects index lvs) = false /\
  (lvs <> [] -> existsb is_cleared (level_objects index lvs) = true).
Proof.
  induction lvs as [|lv lvs IH]; cbn [forallb]; intros Hv Hc.
  - split; [reflexivity | intro H; contradiction H; reflexivity].
  - apply andb_true_iff in Hv. destruct Hv as [Hv Hvs].
    apply andb_true_iff in Hc. destruct Hc as [Hc Hcs].
    destruct (level_valid_severity lv Hv) as [sev Hs].
    destruct (IH Hvs Hcs) as [IHn _].
    unfold level_objects in *. cbn [flat_map]. rewrite Hs. cbn [app existsb].
    rewrite (names_cleared_is_cleared index lv sev Hs Hc). cbn.
    split; [exact IHn | reflexivity].
Qed.

Lemma level_objects_cleared (index : pyvalue) (lvs : list LevelJSON.t) :
  cleared_code_apart ->
  forallb level_valid lvs = true ->
  existsb is_cleared (level_objects index lvs) = existsb names_cleared lvs /\
  existsb (fun o => negb (is_cleared o)) (level_objects index lvs) =
  negb (forallb names_cleared lvs).
Proof.
  intro Hap. induction lvs as [|lv lvs IH]; cbn [forallb existsb]; intro Hv.
  - split; reflexivity.
  - apply andb_true_iff in Hv. destruct Hv as [Hv Hvs].
    destruct (level_valid_severity lv Hv) as [sev Hs].
    destruct (IH Hvs) as [IHc IHn].
    unfold level_objects in *. cbn [flat_map]. rewrite Hs. cbn [app existsb].
    rewrite (is_cleared_level_object index lv sev Hap Hs), IHc, IHn.
    rewrite negb_andb. split; reflexivity.
Qed.

(** The OID suffix of the levels of a validated alarm. *)
Lemma Alarm_try_oid (alarm : AlarmJSON.t) (a : Alarm.t) :
  Alarm_try alarm = Ok a ->
  AlarmJSON.index alarm = Some (Alarm._index a) /\
  forall (code : Z) (L : AlarmLevel.t),
    In (code, L) (Alarm._levels a) ->
    exists sev,
      severity_of_name (lower (AlarmLevel._severity_string L)) = Some sev /\
      AlarmLevel._oid L =
      str (Alarm._index a) ++ "." ++ str_int (model_state_ordinal sev).
Proof.
  intro H. apply Alarm_try_Ok in H.
  destruct H as (n & i & c & lvs & objs & Hn & Hi & Hc & Hv & Hl & Ht & _ & _ & ->).
  rewrite add_levels_index. cbn [initial_alarm Alarm._index].
  split; [exact Hi|].
  intros code L Hin.
  apply add_levels_entry in Hin. destruct Hin as [[]|[Hin _]].
  apply traverse_objects in Ht. destruct Ht as [_ ->].
  apply level_objects_In in Hin. destruct Hin as (lv & sev & _ & Hs & ->).
  exists sev. cbn [level_object AlarmLevel._severity_string AlarmLevel._oid].
  split; [|reflexivity].
  unfold severity_of_level in Hs.
  destruct (LevelJSON.severity lv) as [s|]; [exact Hs | discriminate Hs].
Qed.

(** ** The claims *)

(** C1. For every level of every successfully validated alarm, the OID
    suffix of the level is the string form of the index of the alarm, a
    period, and the model-state ordinal of the severity of the level, the
    ordinals being cleared=1, indeterminate=2, warning=3, minor=4, major=5,
    critical=6. *)
Theorem oid_suffix_is_index_dot_model_state
    (alarm : AlarmJSON.t) (out : list string) (a : Alarm.t) :
  Alarm_init alarm = (out, Ok a) ->
  AlarmJSON.index alarm = Some (Alarm._index a) /\
  forall (code : Z) (L : AlarmLevel.t),
    In (code, L) (Alarm._levels a) ->
    exists sev,
      severity_of_name (lower (AlarmLevel._severity_string L)) = Some sev /\
      AlarmLevel._oid L =
      str (Alarm._index a) ++ "." ++ str_int (model_state_ordinal sev).
Proof.
  intro H. apply Alarm_init_Ok in H. destruct H as [_ H].
  apply Alarm_try_oid, H.
Qed.


Lemma dict_get_None {V : Type} (k : Z) (d : pydict V) :
  ~ In k (dict_inserted d) -> dict_get k d = None.
Proof.
  unfold dict_inserted. induction d as [|[k0 v0] d IH]; cbn; [reflexivity|].
  intro H. destruct (Z.eqb_spec k k0) as [->|Hne]; [exfalso; apply H; left; reflexivity|].
  apply IH. intro Hin. apply H. right; exact Hin.
Qed.

(** The entries stored under one key: at most one. *)
Lemma filter_key {V : Type} (k : Z) (d : pydict V) :
  NoDup (dict_inserted d) ->
  filter (fun e => fst e =? k) d =
  match dict_get k d with
  | Some v => [(k, v)]
  | None => []
  end.
Proof.
  unfold dict_inserted. induction d as [|[k0 v0] d IH]; cbn; [reflexivity|].
  intro H. inversion H as [|? ? Hnin Hnd]; subst.
  rewrite (Z.eqb_sym k k0).
  destruct (Z.eqb_spec k0 k) as [->|Hne].
  - rewrite (IH Hnd), (dict_get_None k d Hnin). reflexivity.
  - apply IH, Hnd.
Qed.

Lemma filter_nonempty_existsb {A : Type} (f : A -> bool) (l : list A) :
  (1 <= length (filter f l))%nat -> existsb f l = true.
Proof.
  induction l as [|x l IH]; cbn; [lia|].
  destruct (f x); cbn; [reflexivity | exact IH].
Qed.

Lemma last_cleared_Some (lvs : list LevelJSON.t) :
  existsb names_cleared lvs = true -> exists lv, last_cleared lvs = Some lv.
Proof.
  induction lvs as [|lv lvs IH]; cbn; [discriminate|].
  intro H. destruct (last_cleared lvs) as [l|]; [eauto|].
  destruct (names_cleared lv); [eauto|]. cbn in H. destruct (IH H) as [l Hl]. discriminate Hl.
Qed.

(** The object stored last under the code of cleared is the Level of the
    last record that names cleared. *)
Lemma last_with_code_cleared (index : pyvalue) (lvs : list LevelJSON.t) :
  cleared_code_apart ->
  forallb level_valid lvs = true ->
  last_with_code (CLEARED alarm_severities) (level_objects index lvs) =
  option_map (fun lv => level_object index lv cleared) (last_cleared lvs).
Proof.
  intro Hap. induction lvs as [|lv lvs IH]; cbn [forallb]; intro Hv; [reflexivity|].
  apply andb_true_iff in Hv. destruct Hv as [Hv Hvs].
  destruct (level_valid_severity lv Hv) as [sev Hs].
  unfold level_objects in *. cbn [flat_map]. rewrite Hs. cbn [app last_with_code last_cleared].
  rewrite (IH Hvs).
  destruct (last_cleared lvs) as [l|]; cbn [option_map]; [reflexivity|].
  pose proof (is_cleared_level_object index lv sev Hap Hs) as Hc.
  unfold is_cleared in Hc. rewrite Hc.
  unfold names_cleared. rewrite Hs.
  destruct sev; reflexivity.
Qed.

(** C2, as the code has it.  An alarm record, valid otherwise, with two
    levels of severity cleared fails when it has no level of another
    severity; when it has one, it validates, and the Alarm holds exactly one
    cleared Level: that of the last cleared level of the record. *)
Theorem two_cleared_levels
    (alarm : AlarmJSON.t) (n : string) (i : pyvalue) (c : string)
    (lvs : list LevelJSON.t) :
  AlarmJSON.name alarm = Some n ->
  AlarmJSON.index alarm = Some i ->
  AlarmJSON.cause alarm = Some c ->
  str_in (lower c) valid_causes = true ->
  AlarmJSON.levels alarm = Some lvs ->
  forallb level_valid lvs = true ->
  (2 <= length (filter names_cleared lvs))%nat ->
  (forallb names_cleared lvs = true ->
   Alarm_init alarm =
   ([], Raise (AssertionError ("Alarm " ++ n ++ " missing any non-cleared severities")))) /\
  (cleared_code_apart -> forallb names_cleared lvs = false ->
   exists a lv,
     Alarm_init alarm = ([], Ok a) /\
     last_cleared lvs = Some lv /\
     filter (fun e => is_cleared (snd e)) (Alarm._levels a) =
     [(CLEARED alarm_severities, level_object i lv cleared)]).
Proof.
  intros Hn Hi Hc Hv Hl Hlv Htwo.
  pose proof (Alarm_try_levels alarm n i c lvs Hn Hi Hc Hv Hl) as Htry.
  rewrite (traverse_valid_levels (initial_alarm n i c) lvs Hlv) in Htry.
  change (Alarm._index (initial_alarm n i c)) with i in Htry.
  cbn [bind] in Htry.
  assert (Hex : existsb names_cleared lvs = true)
    by (apply filter_nonempty_existsb; lia).
  split.
  - intro Hall.
    assert (Hne : lvs <> []) by (intros ->; discriminate Hex).
    destruct (level_objects_all_cleared i lvs Hlv Hall) as [Hnon Hcl].
    rewrite (Hcl Hne), Hnon in Htry. cbn [assert bind] in Htry.
    apply Alarm_init_AssertionError. exact Htry.
  - intros Hap Hsome.
    destruct (level_objects_cleared i lvs Hap Hlv) as [Hcl Hnon].
    rewrite Hcl, Hnon, Hex, Hsome in Htry. cbn [assert bind negb] in Htry.
    destruct (last_cleared_Some lvs Hex) as [lv Hlast].
    set (self := initial_alarm n i c) in *.
    set (objs := level_objects i lvs) in *.
    exists (add_levels self objs), lv.
    split; [apply Alarm_init_Ok; split; [reflexivity | exact Htry]|].
    split; [exact Hlast|].
    assert (Hkey : forall e, In e (Alarm._levels (add_levels self objs)) ->
                             is_cleared (snd e) = (fst e =? CLEARED alarm_severities)).
    { intros [k L] Hin. apply add_levels_entry in Hin.
      destruct Hin as [[]|[_ ->]]. reflexivity. }
    rewrite (filter_ext_in _ _ _ Hkey).
    rewrite filter_key by (apply add_levels_NoDup; constructor).
    rewrite add_levels_get. unfold objs.
    rewrite (last_with_code_cleared i lvs Hap Hlv), Hlast. reflexivity.
Qed.

Ltac split_andb :=
  repeat match goal with
         | H : _ && _ = true |- _ => apply andb_true_iff in H; destruct H
         end.

(** C4. When a level record carries extended_details and validates, the
    details of the Level are the extended details: they fill the details
    column of the row written for the level, and the Level is the same
    whatever the base details are.  The same holds of extended_description
    and the description.  The row has ten columns. *)
Theorem extended_fields_replace
    (parent_alarm : Alarm.t) (level : LevelJSON.t) (L : AlarmLevel.t) (alarm : Alarm.t) :
  AlarmLevel_init parent_alarm level = Ok L ->
  (forall x, LevelJSON.extended_details level = Some x ->
     AlarmLevel._details L = x /\
     nth_error (values alarm L) 6 = Some (PyStr x) /\
     forall d, len d < 256 ->
               AlarmLevel_init parent_alarm (with_details d level) = Ok L) /\
  (forall x, LevelJSON.extended_description level = Some x ->
     AlarmLevel._description L = x /\
     nth_error (values alarm L) 5 = Some (PyStr x) /\
     forall d, len d < 256 ->
               AlarmLevel_init parent_alarm (with_description d level) = Ok L) /\
  length (values alarm L) = 10%nat.
Proof.
  intro H. apply AlarmLevel_init_Ok in H. destruct H as [Hv [sev [Hs ->]]].
  destruct level as [d de c e a xd xde s].
  unfold level_valid, severity_of_level in Hv.
  cbn [LevelJSON.details LevelJSON.description LevelJSON.cause
    LevelJSON.effect LevelJSON.action LevelJSON.extended_details
    LevelJSON.extended_description LevelJSON.severity] in Hv.
  split_andb.
  split; [|split; [|reflexivity]].
  - cbn [LevelJSON.extended_details]. intros x ->.
    split; [reflexivity|]. split; [reflexivity|].
    intros d' Hd'. apply AlarmLevel_init_Ok. split.
    + unfold level_valid, with_details, severity_of_level.
      cbn [LevelJSON.details LevelJSON.description LevelJSON.cause
           LevelJSON.effect LevelJSON.action LevelJSON.extended_details
           LevelJSON.extended_description LevelJSON.severity present_below].
      apply Z.ltb_lt in Hd'. rewrite Hd'.
      repeat (apply andb_true_iff; split); assumption || reflexivity.
    + exists sev. split; [exact Hs | reflexivity].
  - cbn [LevelJSON.extended_description]. intros x ->.
    split; [reflexivity|]. split; [reflexivity|].
    intros d' Hd'. apply AlarmLevel_init_Ok. split.
    + unfold level_valid, with_description, severity_of_level.
      cbn [LevelJSON.details LevelJSON.description LevelJSON.cause
           LevelJSON.effect LevelJSON.action LevelJSON.extended_details
           LevelJSON.extended_description LevelJSON.severity present_below].
      apply Z.ltb_lt in Hd'. rewrite Hd'.
      repeat (apply andb_true_iff; split); assumption || reflexivity.
    + exists sev. split; [exact Hs | reflexivity].
Qed.













(** ** The loader *)

Lemma for_alarms_all (alarms : list AlarmJSON.t) (objs acc : list Alarm.t) :
  Forall2 (fun alarm a => Alarm_init alarm = ([], Ok a)) alarms objs ->
  for_alarms alarms acc = ([], Ok (acc ++ objs)%list).
Proof.
  intro H. revert acc. induction H as [|alarm a alarms objs Ha _ IH]; intro acc.
  - cbn. rewrite app_nil_r. reflexivity.
  - cbn [for_alarms]. rewrite Ha. cbn [io_bind]. rewrite IH. cbn.
    rewrite <- app_assoc. reflexivity.
Qed.

Lemma for_alarms_first_failure
    (pre : list AlarmJSON.t) (alarm : AlarmJSON.t) (post : list AlarmJSON.t)
    (objs acc : list Alarm.t) (out : list string) (e : exn) :
  Forall2 (fun alarm a => Alarm_init alarm = ([], Ok a)) pre objs ->
  Alarm_init alarm = (out, Raise e) ->
  for_alarms (pre ++ alarm :: post) acc = (out, Raise e).
Proof.
  intros H He. revert acc. induction H as [|alarm' a pre objs Ha _ IH]; intro acc.
  - cbn [app for_alarms]. rewrite He. reflexivity.
  - cbn [app for_alarms]. rewrite Ha. cbn [io_bind]. rewrite IH. reflexivity.
Qed.

(** Every list of records validates throughout, or has a first record that
    fails. *)
Lemma all_or_first_failure (alarms : list AlarmJSON.t) :
  (exists objs, Forall2 (fun alarm a => Alarm_init alarm = ([], Ok a)) alarms objs) \/
  (exists pre alarm post objs out e,
      alarms = (pre ++ alarm :: post)%list /\
      Forall2 (fun alarm a => Alarm_init alarm = ([], Ok a)) pre objs /\
      Alarm_init alarm = (out, Raise e)).
Proof.
  induction alarms as [|alarm alarms IH].
  - left. exists []. constructor.
  - destruct (Alarm_init alarm) as [out [a|e]] eqn:Ha.
    + assert (out = []) by (apply Alarm_init_Ok in Ha; tauto). subst out.
      destruct IH as [[objs H]|(pre & alarm' & post & objs & out & e & -> & H & He)].
      * left. exists (a :: objs). constructor; assumption.
      * right. exists (alarm :: pre), alarm', post, (a :: objs), out, e.
        split; [reflexivity|]. split; [constructor; assumption | exact He].
    + right. exists [], alarm, alarms, [], out, e.
      split; [reflexivity|]. split; [constructor | exact Ha].
Qed.


(** ** The renderers *)

Lemma append_nil_r (s : string) : s ++ EmptyString = s.
Proof. induction s as [|c s IH]; cbn; [reflexivity | rewrite IH; reflexivity]. Qed.

Lemma append_assoc (s t u : string) : (s ++ t) ++ u = s ++ (t ++ u).
Proof. induction s as [|c s IH]; cbn; [reflexivity | rewrite IH; reflexivity]. Qed.

Lemma text_of_app (l l' : list string) : text_of (l ++ l') = text_of l ++ text_of l'.
Proof.
  unfold text_of. induction l as [|x l IH]; cbn; [reflexivity|].
  rewrite IH, append_assoc. reflexivity.
Qed.

Lemma for_alarm_levels_text (alarm : Alarm.t) (alarm_levels : list AlarmLevel.t)
    (output : string) :
  for_alarm_levels alarm alarm_levels output =
  output ++ text_of (map writerow (map (values alarm) alarm_levels)).
Proof.
  revert output. induction alarm_levels as [|L rest IH]; intro output; cbn.
  - rewrite append_nil_r. reflexivity.
  - rewrite IH, append_assoc. reflexivity.
Qed.

Lemma for_alarm_list_text (alarm_list : list Alarm.t) (output : string) :
  for_alarm_list alarm_list output =
  output ++ text_of (map writerow (csv_rows alarm_list)).
Proof.
  revert output. induction alarm_list as [|alarm rest IH]; intro output.
  - cbn. rewrite append_nil_r. reflexivity.
  - cbn [for_alarm_list csv_rows flat_map]. rewrite IH, for_alarm_levels_text.
    rewrite map_app, text_of_app, append_assoc. reflexivity.
Qed.

Lemma csv_rows_app (l l' : list Alarm.t) :
  csv_rows (l ++ l') = (csv_rows l ++ csv_rows l')%list.
Proof. unfold csv_rows. apply flat_map_app. Qed.

Lemma for_alarms_Ok (alarms : list AlarmJSON.t) (acc l : list Alarm.t) (out : list string) :
  for_alarms alarms acc = (out, Ok l) ->
  out = [] /\
  exists objs, l = (acc ++ objs)%list /\
               Forall2 (fun alarm a => Alarm_init alarm = ([], Ok a)) alarms objs.
Proof.
  intro H.
  destruct (all_or_first_failure alarms)
    as [[objs Hall]|(pre & alarm & post & objs & out' & e & -> & Hpre & He)].
  - rewrite (for_alarms_all alarms objs acc Hall) in H. injection H as <- <-.
    split; [reflexivity|]. exists objs. split; [reflexivity | exact Hall].
  - rewrite (for_alarms_first_failure pre alarm post objs acc out' e Hpre He) in H.
    discriminate H.
Qed.

(** A document that loads yields validated alarms and prints nothing. *)
Lemma parse_alarms_file_Ok (alarms_data : DocumentJSON.t) (l : list Alarm.t) :
  snd (parse_alarms_file alarms_data) = Ok l ->
  parse_alarms_file alarms_data = ([], Ok l) /\
  exists alarms, DocumentJSON.alarms alarms_data = Some alarms /\
                 Forall2 (fun alarm a => Alarm_init alarm = ([], Ok a)) alarms l.
Proof.
  unfold parse_alarms_file.
  destruct (DocumentJSON.alarms alarms_data) as [alarms|]; cbn [getitem io_lift io_bind];
    [|discriminate].
  destruct (for_alarms alarms []) as [out r] eqn:Hf. cbn [snd app]. intros ->.
  apply for_alarms_Ok in Hf. destruct Hf as [-> [objs [-> Hall]]].
  split; [reflexivity|]. exists alarms. split; [reflexivity | exact Hall].
Qed.

Lemma for_alarms_files_text (alarms_files : list DocumentJSON.t)
    (alarm_lists : list (list Alarm.t)) (output : string) :
  Forall2 (fun doc l => snd (parse_alarms_file doc) = Ok l) alarms_files alarm_lists ->
  for_alarms_files alarms_files output =
  ([], Ok (output ++ text_of (map writerow (csv_rows (concat alarm_lists))))).
Proof.
  intro H. revert output. induction H as [|doc l docs ls Hd _ IH]; intro output.
  - cbn. rewrite append_nil_r. reflexivity.
  - cbn [for_alarms_files concat].
    destruct (parse_alarms_file_Ok doc l Hd) as [-> _]. cbn [io_bind].
    rewrite IH, for_alarm_list_text, csv_rows_app, map_app, text_of_app, append_assoc.
    reflexivity.
Qed.

(** The keys of the table of a validated alarm are distinct. *)
Lemma Alarm_init_NoDup (alarm : AlarmJSON.t) (a : Alarm.t) :
  Alarm_init alarm = ([], Ok a) -> NoDup (dict_inserted (Alarm._levels a)).
Proof.
  intro H. apply Alarm_init_Ok in H. destruct H as [_ H]. apply Alarm_try_Ok in H.
  destruct H as (n & i & c & lvs & objs & _ & _ & _ & _ & _ & _ & _ & _ & ->).
  apply add_levels_NoDup. constructor.
Qed.

Lemma csv_rows_perm (alarm_list : list Alarm.t) :
  Forall (fun a => NoDup (dict_inserted (Alarm._levels a))) alarm_list ->
  Permutation (csv_rows alarm_list)
    (flat_map (fun alarm => map (fun e => values alarm (snd e)) (Alarm._levels alarm))
              alarm_list).
Proof.
  induction 1 as [|a l Ha _ IH]; cbn [csv_rows flat_map]; [reflexivity|].
  apply Permutation_app; [|exact IH].
  rewrite <- (map_map snd (values a)).
  apply Permutation_map, dict_itervalues_perm, Ha.
Qed.

(** On byte strings the table of documents that load is the header row
    followed by the rows of the alarms, and these are the rows of the stored
    levels in some order. *)
Lemma alarms_to_csv_loaded
    (alarms_files : list DocumentJSON.t) (alarm_lists : list (list Alarm.t)) :
  Forall2 (fun doc l => snd (parse_alarms_file doc) = Ok l) alarms_files alarm_lists ->
  alarms_to_csv alarms_files =
  ([], Ok (text_of (map writerow (map PyStr columns :: csv_rows (concat alarm_lists))))) /\
  Permutation
    (csv_rows (concat alarm_lists))
    (flat_map (fun alarm => map (fun e => values alarm (snd e)) (Alarm._levels alarm))
              (concat alarm_lists)).
Proof.
  intro H. split.
  - unfold alarms_to_csv. rewrite (for_alarms_files_text alarms_files alarm_lists _ H).
    cbn [map text_of fold_right append]. reflexivity.
  - apply (csv_rows_perm (concat alarm_lists)).
    apply Forall_concat.
    induction H as [|doc l docs ls Hd _ IH]; constructor; [|exact IH].
    destruct (parse_alarms_file_Ok doc l Hd) as [_ [alarms [_ Hall]]].
    clear Hd. induction Hall as [|alarm a alarms l Ha _ IHl]; constructor; [|exact IHl].
    apply (Alarm_init_NoDup alarm a Ha).
Qed.

Lemma join_cons (sep x : string) (l : list string) :
  join sep (x :: l) = x ++ text_of (map (fun y => sep ++ y) l).
Proof.
  revert x. induction l as [|y l IH]; intro x.
  - cbn. rewrite append_nil_r. reflexivity.
  - change (join sep (x :: y :: l)) with (x ++ sep ++ join sep (y :: l)).
    rewrite IH. cbn [map text_of fold_right]. rewrite append_assoc. reflexivity.
Qed.

Lemma level_objects_codes (index : pyvalue) (lvs : list LevelJSON.t) (code : Z) :
  In code (map AlarmLevel._itu_severity (level_objects index lvs)) <->
  exists lv sev, In lv lvs /\ severity_of_level lv = Some sev /\ itu_code sev = code.
Proof.
  rewrite in_map_iff. split.
  - intros [L [<- Hin]]. apply level_objects_In in Hin.
    destruct Hin as (lv & sev & Hin & Hs & ->). exists lv, sev. auto.
  - intros (lv & sev & Hin & Hs & <-).
    exists (level_object index lv sev). split; [reflexivity|].
    apply level_objects_In. exists lv, sev. auto.
Qed.

(** The keys of the table of a validated alarm: distinct, at least one, the
    codes of its levels, and the codes of the severities that the records
    name. *)
Lemma validated_alarm_keys (alarm : AlarmJSON.t) (out : list string) (a : Alarm.t) :
  Alarm_init alarm = (out, Ok a) ->
  NoDup (dict_keys (Alarm._levels a)) /\
  dict_keys (Alarm._levels a) <> [] /\
  (forall code, In code (dict_keys (Alarm._levels a)) <->
                exists L, In (code, L) (Alarm._levels a) /\
                          AlarmLevel._itu_severity L = code) /\
  (forall code, In code (dict_keys (Alarm._levels a)) <->
                exists lvs lv sev,
                  AlarmJSON.levels alarm = Some lvs /\ In lv lvs /\
                  severity_of_level lv = Some sev /\ itu_code sev = code).
Proof.
  intro H. apply Alarm_init_Ok in H. destruct H as [_ H]. apply Alarm_try_Ok in H.
  destruct H as (n & i & c & lvs & objs & Hn & Hi & Hc & Hv & Hl & Ht & Hfc & _ & ->).
  set (a := add_levels (initial_alarm n i c) objs).
  assert (Hnd : NoDup (dict_inserted (Alarm._levels a)))
    by (apply add_levels_NoDup; constructor).
  pose proof (dict_order_perm _ Hnd) as Hperm.
  assert (Hkeys : forall code, In code (dict_keys (Alarm._levels a)) <->
                               In code (map AlarmLevel._itu_severity objs)).
  { intro code. unfold dict_keys. split; intro Hin.
    - apply (Permutation_in _ Hperm) in Hin. apply add_levels_keys in Hin.
      destruct Hin as [[]|Hin]. exact Hin.
    - apply (Permutation_in _ (Permutation_sym Hperm)).
      apply add_levels_keys. right. exact Hin. }
  assert (Hne : dict_keys (Alarm._levels a) <> []).
  { intro Hk. destruct objs as [|o objs]; [discriminate Hfc|].
    pose proof (proj2 (Hkeys (AlarmLevel._itu_severity o)) (or_introl eq_refl)) as Hin.
    rewrite Hk in Hin. exact Hin. }
  split; [|split; [|split]].
  - apply (Permutation_NoDup (Permutation_sym Hperm) Hnd).
  - exact Hne.
  - intro code. rewrite Hkeys. split.
    + intro Hin. apply in_map_iff in Hin. destruct Hin as [o [<- Hin]].
      assert (Hin' : In (AlarmLevel._itu_severity o) (dict_inserted (Alarm._levels a))).
      { apply add_levels_keys. right. apply in_map, Hin. }
      unfold dict_inserted in Hin'. apply in_map_iff in Hin'.
      destruct Hin' as [[k L] [Hk HinL]]. cbn in Hk. subst k.
      exists L. split; [exact HinL|].
      apply add_levels_entry in HinL. destruct HinL as [[]|[_ Heq]]. symmetry; exact Heq.
    + intros [L [HinL <-]].
      apply add_levels_entry in HinL. destruct HinL as [[]|[HinL _]].
      apply in_map, HinL.
  - intro code. rewrite Hkeys.
    apply traverse_objects in Ht. destruct Ht as [_ ->].
    cbn [initial_alarm Alarm._index]. rewrite level_objects_codes. split.
    + intros (lv & sev & Hin & Hs & Hcode). exists lvs, lv, sev. auto.
    + intros (lvs' & lv & sev & Hl' & Hin & Hs & Hcode).
      rewrite Hl in Hl'. injection Hl' as <-. exists lv, sev. auto.
Qed.






(** ** Further properties of the level validator *)





(** ** Further properties of the alarm validator *)

Lemma Alarm_init_printed (alarm : AlarmJSON.t) :
  Alarm_init alarm =
  (match Alarm_try alarm with
   | Ok _ => []
   | Raise e => printed_for e
   end, Alarm_try alarm).
Proof.
  unfold Alarm_init, io_lift. destruct (Alarm_try alarm) as [a|[key|msg]]; reflexivity.
Qed.

(** X3. An invalid level ends the validation of its alarm: when the levels
    before it are valid, the alarm fails with the error of that level,
    whatever follows it, and a missing key is reported on standard output. *)
Theorem first_invalid_level_decides
    (alarm : AlarmJSON.t) (n : string) (i : pyvalue) (c : string)
    (pre : list LevelJSON.t) (lv : LevelJSON.t) (post : list LevelJSON.t) (e : exn) :
  AlarmJSON.name alarm = Some n ->
  AlarmJSON.index alarm = Some i ->
  AlarmJSON.cause alarm = Some c ->
  str_in (lower c) valid_causes = true ->
  AlarmJSON.levels alarm = Some (pre ++ lv :: post)%list ->
  forallb level_valid pre = true ->
  AlarmLevel_init (initial_alarm n i c) lv = Raise e ->
  Alarm_init alarm = (printed_for e, Raise e).
Proof.
  intros Hn Hi Hc Hv Hl Hpre He.
  assert (Htry : Alarm_try alarm = Raise e).
  { rewrite (Alarm_try_levels alarm n i c _ Hn Hi Hc Hv Hl).
    assert (Ht : traverse (AlarmLevel_init (initial_alarm n i c)) (pre ++ lv :: post) =
                 Raise e).
    { apply traverse_Raise.
      exists pre, lv, post, (level_objects (Alarm._index (initial_alarm n i c)) pre).
      split; [reflexivity|]. split; [|exact He].
      apply traverse_Ok, traverse_valid_levels, Hpre. }
    rewrite Ht. reflexivity. }
  rewrite Alarm_init_printed, Htry. reflexivity.
Qed.




Lemma dict_setitem_length {V : Type} (k : Z) (v : V) (d : pydict V) :
  (length (dict_setitem k v d) <= S (length d))%nat.
Proof.
  induction d as [|[k0 v0] d IH]; cbn; [lia|].
  destruct (k =? k0); cbn; lia.
Qed.

Lemma add_levels_length (self : Alarm.t) (objs : list AlarmLevel.t) :
  (length (Alarm._levels (add_levels self objs)) <=
   length (Alarm._levels self) + length objs)%nat.
Proof.
  revert self. induction objs as [|o objs IH]; intro self; [cbn; lia|].
  rewrite add_levels_cons. specialize (IH (Alarm.setitem_levels self
                                             (AlarmLevel._itu_severity o) o)).
  cbn [Alarm.setitem_levels Alarm._levels length] in *.
  pose proof (dict_setitem_length (AlarmLevel._itu_severity o) o (Alarm._levels self)).
  lia.
Qed.

Lemma last_with_code_Some (code : Z) (objs : list AlarmLevel.t) :
  existsb (fun o => AlarmLevel._itu_severity o =? code) objs = true ->
  exists o, last_with_code code objs = Some o.
Proof.
  induction objs as [|o objs IH]; cbn; [discriminate|].
  intro H. destruct (last_with_code code objs) as [o'|]; [eauto|].
  destruct (AlarmLevel._itu_severity o =? code); [eauto|].
  cbn in H. destruct (IH H) as [o' Ho']. discriminate Ho'.
Qed.

Lemma level_objects_length (index : pyvalue) (lvs : list LevelJSON.t) :
  (length (level_objects index lvs) <= length lvs)%nat.
Proof.
  unfold level_objects. induction lvs as [|lv lvs IH]; cbn [flat_map length]; [lia|].
  rewrite length_app. destruct (severity_of_level lv); cbn [length]; lia.
Qed.

(** X6. In a validated alarm the levels are stored under distinct ITU
    codes, each under the code of its own severity; exactly one of them
    carries the code of cleared and one at least carries another code; there
    are at least two levels and no more than the record lists. *)
Theorem validated_alarm_levels
    (alarm : AlarmJSON.t) (out : list string) (a : Alarm.t) :
  Alarm_init alarm = (out, Ok a) ->
  NoDup (map fst (Alarm._levels a)) /\
  (forall k L, In (k, L) (Alarm._levels a) -> k = AlarmLevel._itu_severity L) /\
  length (filter (fun e => AlarmLevel._itu_severity (snd e) =? CLEARED alarm_severities)
                 (Alarm._levels a)) = 1%nat /\
  (exists k L, In (k, L) (Alarm._levels a) /\
               AlarmLevel._itu_severity L <> CLEARED alarm_severities) /\
  (2 <= length (Alarm._levels a))%nat /\
  (forall lvs, AlarmJSON.levels alarm = Some lvs ->
               (length (Alarm._levels a) <= length lvs)%nat).
Proof.
  intro H. apply Alarm_init_Ok in H. destruct H as [_ H]. apply Alarm_try_Ok in H.
  destruct H as (n & i & c & lvs & objs & Hn & Hi & Hc & Hv & Hl & Ht & Hfc & Hfnc & ->).
  set (self := initial_alarm n i c) in *.
  assert (Hnd : NoDup (dict_inserted (Alarm._levels (add_levels self objs))))
    by (apply add_levels_NoDup; constructor).
  assert (Hkey : forall k L, In (k, L) (Alarm._levels (add_levels self objs)) ->
                             k = AlarmLevel._itu_severity L).
  { intros k L Hin. apply add_levels_entry in Hin. destruct Hin as [[]|[_ Hk]]. exact Hk. }
  assert (Hone : length (filter (fun e => AlarmLevel._itu_severity (snd e)
                                          =? CLEARED alarm_severities)
                                (Alarm._levels (add_levels self objs))) = 1%nat).
  { assert (Hext : forall e, In e (Alarm._levels (add_levels self objs)) ->
                             (AlarmLevel._itu_severity (snd e) =? CLEARED alarm_severities) =
                             (fst e =? CLEARED alarm_severities)).
    { intros [k L] Hin. rewrite (Hkey k L Hin). reflexivity. }
    rewrite (filter_ext_in _ _ _ Hext), (filter_key _ _ Hnd), add_levels_get.
    destruct (last_with_code_Some _ objs Hfc) as [o ->]. reflexivity. }
  assert (Hnon : exists k L, In (k, L) (Alarm._levels (add_levels self objs)) /\
                             AlarmLevel._itu_severity L <> CLEARED alarm_severities).
  { apply existsb_exists in Hfnc. destruct Hfnc as [o [Hin Ho]].
    assert (Hk : In (AlarmLevel._itu_severity o)
                    (dict_inserted (Alarm._levels (add_levels self objs)))).
    { apply add_levels_keys. right. apply in_map, Hin. }
    unfold dict_inserted in Hk. apply in_map_iff in Hk. destruct Hk as [[k L] [Hk HinL]].
    cbn in Hk. subst k. exists (AlarmLevel._itu_severity o), L. split; [exact HinL|].
    rewrite <- (Hkey _ _ HinL). unfold is_cleared in Ho.
    destruct (Z.eqb_spec (AlarmLevel._itu_severity o) (CLEARED alarm_severities));
      [discriminate Ho | assumption]. }
  split; [exact Hnd|]. split; [exact Hkey|]. split; [exact Hone|]. split; [exact Hnon|].
  split.
  - destruct Hnon as (k & L & Hin & Hne).
    destruct (Alarm._levels (add_levels self objs)) as [|e1 [|e2 rest]] eqn:Hd;
      [destruct Hin | | cbn; lia].
    exfalso. destruct Hin as [->|[]]. cbn in Hone.
    destruct (Z.eqb_spec (AlarmLevel._itu_severity L) (CLEARED alarm_severities));
      [contradiction | discriminate Hone].
  - intros lvs' Hl'. rewrite Hl in Hl'. injection Hl' as <-.
    apply traverse_objects in Ht. destruct Ht as [_ ->].
    pose proof (add_levels_length self (level_objects (Alarm._index self) lvs)) as Hlen.
    pose proof (level_objects_length (Alarm._index self) lvs).
    cbn [self initial_alarm Alarm._levels length] in Hlen. lia.
Qed.

Lemma severity_eqb_eq (s s' : severity) : severity_eqb s s' = true <-> s = s'.
Proof. destruct s, s'; cbn; split; intro H; try reflexivity; discriminate H. Qed.

Lemma itu_code_eqb (s s' : severity) :
  codes_distinct -> (itu_code s =? itu_code s') = severity_eqb s s'.
Proof.
  intro Hd. destruct (Z.eqb_spec (itu_code s) (itu_code s')) as [Heq|Hne].
  - apply Hd in Heq. subst s'. symmetry. apply severity_eqb_eq. reflexivity.
  - destruct (severity_eqb s s') eqn:He; [|reflexivity].
    apply severity_eqb_eq in He. subst s'. contradiction Hne. reflexivity.
Qed.

Lemma last_with_code_naming (index : pyvalue) (sev : severity) (lvs : list LevelJSON.t) :
  codes_distinct ->
  last_with_code (itu_code sev) (level_objects index lvs) =
  option_map (fun lv => level_object index lv sev) (last_naming sev lvs).
Proof.
  intro Hd. unfold level_objects.
  induction lvs as [|lv lvs IH]; cbn [flat_map last_naming]; [reflexivity|].
  unfold names_severity.
  destruct (severity_of_level lv) as [s|]; cbn [app last_with_code].
  - rewrite IH. destruct (last_naming sev lvs); cbn [option_map]; [reflexivity|].
    cbn [level_object AlarmLevel._itu_severity]. rewrite (itu_code_eqb s sev Hd).
    destruct (severity_eqb s sev) eqn:He; [|reflexivity].
    apply severity_eqb_eq in He. subst s. reflexivity.
  - rewrite IH. destruct (last_naming sev lvs); reflexivity.
Qed.

(** X7. When several levels of a record name the same severity, the last
    one is kept: under the ITU code of each severity, a validated alarm
    holds the Level of the last level record that names it, and nothing if
    none does. *)
Theorem last_level_of_a_severity_is_kept
    (alarm : AlarmJSON.t) (out : list string) (a : Alarm.t) (lvs : list LevelJSON.t) :
  codes_distinct ->
  Alarm_init alarm = (out, Ok a) ->
  AlarmJSON.levels alarm = Some lvs ->
  forall sev : severity,
    dict_get (itu_code sev) (Alarm._levels a) =
    option_map (fun lv => level_object (Alarm._index a) lv sev) (last_naming sev lvs).
Proof.
  intros Hd H Hlvs sev. apply Alarm_init_Ok in H. destruct H as [_ H].
  apply Alarm_try_Ok in H.
  destruct H as (n & i & c & lvs' & objs & _ & _ & _ & _ & Hl & Ht & _ & _ & ->).
  rewrite Hlvs in Hl. injection Hl as <-.
  apply traverse_objects in Ht. destruct Ht as [_ ->].
  rewrite add_levels_get, add_levels_index.
  cbn [initial_alarm Alarm._index Alarm._levels dict_get].
  rewrite (last_with_code_naming i sev lvs Hd).
  destruct (last_naming sev lvs); reflexivity.
Qed.

Lemma append_inj_l (s a b : string) : s ++ a = s ++ b -> a = b.
Proof.
  induction s as [|ch s IH]; cbn; intro H; [exact H|].
  injection H as H. apply IH, H.
Qed.

Lemma model_state_ordinal_text_inj (s s' : severity) :
  str_int (model_state_ordinal s) = str_int (model_state_ordinal s') -> s = s'.
Proof. destruct s, s'; intro H; try reflexivity; vm_compute in H; discriminate H. Qed.

(** X8. The OID identifies the level: in a validated alarm two levels with
    the same full OID, the fixed prefix followed by the OID suffix, are one
    and the same level. *)
Theorem full_oid_identifies_level
    (alarm : AlarmJSON.t) (out : list string) (a : Alarm.t) :
  Alarm_init alarm = (out, Ok a) ->
  forall k1 L1 k2 L2,
    In (k1, L1) (Alarm._levels a) ->
    In (k2, L2) (Alarm._levels a) ->
    full_alarm_oid (AlarmLevel._oid L1) = full_alarm_oid (AlarmLevel._oid L2) ->
    k1 = k2 /\ L1 = L2.
Proof.
  intro H. apply Alarm_init_Ok in H. destruct H as [_ H]. apply Alarm_try_Ok in H.
  destruct H as (n & i & c & lvs & objs & _ & _ & _ & _ & _ & Ht & _ & _ & ->).
  apply traverse_objects in Ht. destruct Ht as [_ ->].
  cbn [initial_alarm Alarm._index].
  set (a := add_levels _ _).
  assert (Hnd : NoDup (dict_inserted (Alarm._levels a)))
    by (apply add_levels_NoDup; constructor).
  assert (Hobj : forall k L, In (k, L) (Alarm._levels a) ->
                             exists lv sev, k = itu_code sev /\ L = level_object i lv sev).
  { intros k L Hin. apply add_levels_entry in Hin. destruct Hin as [[]|[Hin ->]].
    apply level_objects_In in Hin. destruct Hin as (lv & sev & _ & _ & ->).
    exists lv, sev. split; reflexivity. }
  intros k1 L1 k2 L2 H1 H2 Hoid.
  destruct (Hobj _ _ H1) as (lv1 & s1 & -> & HL1).
  destruct (Hobj _ _ H2) as (lv2 & s2 & -> & HL2).
  assert (Hs : s1 = s2).
  { subst L1 L2. unfold full_alarm_oid in Hoid. apply append_inj_l in Hoid.
    cbn [level_object AlarmLevel._oid] in Hoid.
    apply append_inj_l in Hoid. apply (append_inj_l ".") in Hoid.
    apply model_state_ordinal_text_inj, Hoid. }
  subst s2. split; [reflexivity|].
  pose proof (dict_In_get _ _ _ Hnd H1) as G1.
  pose proof (dict_In_get _ _ _ Hnd H2) as G2.
  rewrite G1 in G2. injection G2 as G2. exact G2.
Qed.

(** ** Further properties of the table renderer *)

Lemma for_alarms_files_first_failure
    (pre : list DocumentJSON.t) (doc : DocumentJSON.t) (post : list DocumentJSON.t)
    (alarm_lists : list (list Alarm.t)) (output : string) (out : list string) (e : exn) :
  Forall2 (fun doc l => snd (parse_alarms_file doc) = Ok l) pre alarm_lists ->
  parse_alarms_file doc = (out, Raise e) ->
  for_alarms_files (pre ++ doc :: post) output = (out, Raise e).
Proof.
  intros H He. revert output. induction H as [|d l docs ls Hd _ IH]; intro output.
  - cbn [app for_alarms_files]. rewrite He. reflexivity.
  - cbn [app for_alarms_files].
    destruct (parse_alarms_file_Ok d l Hd) as [-> _]. cbn [io_bind].
    rewrite IH. reflexivity.
Qed.

Lemma alarms_to_csv_first_failure_aux
    (pre : list DocumentJSON.t) (doc : DocumentJSON.t) (post : list DocumentJSON.t)
    (alarm_lists : list (list Alarm.t)) (out : list string) (e : exn) :
  Forall2 (fun doc l => snd (parse_alarms_file doc) = Ok l) pre alarm_lists ->
  parse_alarms_file doc = (out, Raise e) ->
  alarms_to_csv (pre ++ doc :: post) = (out, Raise e).
Proof.
  intros H He. unfold alarms_to_csv.
  apply (for_alarms_files_first_failure pre doc post alarm_lists _ out e H He).
Qed.


Lemma for_alarms_files_output (alarms_files : list DocumentJSON.t) (output : string) :
  for_alarms_files alarms_files output =
  match for_alarms_files alarms_files EmptyString with
  | (out, Ok body) => (out, Ok (output ++ body))
  | (out, Raise e) => (out, Raise e)
  end.
Proof.
  revert output. induction alarms_files as [|doc docs IH]; intro output.
  - cbn. rewrite append_nil_r. reflexivity.
  - cbn [for_alarms_files].
    destruct (parse_alarms_file doc) as [out [l|e]]; cbn [io_bind]; [|reflexivity].
    rewrite (IH (for_alarm_list l output)), (IH (for_alarm_list l EmptyString)).
    destruct (for_alarms_files docs EmptyString) as [out' [body|e]]; [|reflexivity].
    rewrite (for_alarm_list_text l output), (for_alarm_list_text l EmptyString).
    cbn [append]. rewrite append_assoc. reflexivity.
Qed.

Lemma for_alarms_files_app (docs docs' : list DocumentJSON.t) (output : string) :
  for_alarms_files (docs ++ docs') output =
  (text <-- for_alarms_files docs output ;; for_alarms_files docs' text).
Proof.
  revert output. induction docs as [|doc docs IH]; intro output.
  - cbn. destruct (for_alarms_files docs' output) as [out r]. reflexivity.
  - cbn [app for_alarms_files].
    destruct (parse_alarms_file doc) as [out [l|e]]; cbn [io_bind]; [|reflexivity].
    rewrite IH.
    destruct (for_alarms_files docs (for_alarm_list l output)) as [out1 [t|e]];
      cbn [io_bind]; [|reflexivity].
    destruct (for_alarms_files docs' t) as [out2 r]. rewrite app_assoc. reflexivity.
Qed.

(** Every text the renderer returns starts with the header. *)
Lemma alarms_to_csv_header (docs : list DocumentJSON.t) (out : list string) (t : string) :
  alarms_to_csv docs = (out, Ok t) -> exists body, t = header_text ++ body.
Proof.
  unfold alarms_to_csv. cbn [append]. fold header_text.
  rewrite for_alarms_files_output.
  destruct (for_alarms_files docs EmptyString) as [o [b|e]]; [|discriminate].
  intro H. injection H as _ <-. exists b. reflexivity.
Qed.

(** ** What is printed *)

(** Every list of documents loads throughout, or has a first document that
    does not. *)
Lemma documents_all_or_first_failure (docs : list DocumentJSON.t) :
  (exists alarm_lists,
      Forall2 (fun doc l => snd (parse_alarms_file doc) = Ok l) docs alarm_lists) \/
  (exists pre doc post alarm_lists out e,
      docs = (pre ++ doc :: post)%list /\
      Forall2 (fun doc l => snd (parse_alarms_file doc) = Ok l) pre alarm_lists /\
      parse_alarms_file doc = (out, Raise e)).
Proof.
  induction docs as [|doc docs IH].
  - left. exists []. constructor.
  - destruct (parse_alarms_file doc) as [out [l|e]] eqn:Hd.
    + destruct IH as [[ls H]|(pre & doc' & post & ls & out' & e & -> & H & He)].
      * left. exists (l :: ls). constructor; [rewrite Hd; reflexivity | exact H].
      * right. exists (doc :: pre), doc', post, (l :: ls), out', e.
        split; [reflexivity|].
        split; [constructor; [rewrite Hd; reflexivity | exact H] | exact He].
    + right. exists [], doc, docs, [], out, e.
      split; [reflexivity|]. split; [constructor | exact Hd].
Qed.

Lemma parse_alarms_file_printed (doc : DocumentJSON.t) (out : list string)
    (r : result (list Alarm.t)) :
  parse_alarms_file doc = (out, r) ->
  out = [] \/ exists key, r = Raise (KeyError key) /\ out = [missing_value_line key].
Proof.
  unfold parse_alarms_file.
  destruct (DocumentJSON.alarms doc) as [alarms|]; cbn [getitem io_lift io_bind].
  - destruct (for_alarms alarms []) as [o r'] eqn:Hf. cbn [app]. intro H.
    injection H as <- <-.
    destruct (all_or_first_failure alarms)
      as [[objs Hall]|(pre & alarm & post & objs & out' & e & -> & Hpre & He)].
    + rewrite (for_alarms_all alarms objs [] Hall) in Hf. injection Hf as <- _.
      left. reflexivity.
    + rewrite (for_alarms_first_failure pre alarm post objs [] out' e Hpre He) in Hf.
      injection Hf as <- <-.
      rewrite Alarm_init_printed in He. injection He as Ho Hr.
      rewrite Hr in Ho. subst out'.
      destruct e as [key|msg]; [right; exists key; split; reflexivity | left; reflexivity].
  - intro H. injection H as <- _. left. reflexivity.
Qed.

Lemma alarms_to_csv_printed (docs : list DocumentJSON.t) (out : list string)
    (r : result string) :
  alarms_to_csv docs = (out, r) ->
  out = [] \/ exists key, r = Raise (KeyError key) /\ out = [missing_value_line key].
Proof.
  intro H.
  destruct (documents_all_or_first_failure docs)
    as [[ls Hall]|(pre & doc & post & ls & out' & e & -> & Hpre & He)].
  - unfold alarms_to_csv in H.
    rewrite (for_alarms_files_text docs ls _ Hall) in H. injection H as <- _.
    left. reflexivity.
  - rewrite (alarms_to_csv_first_failure_aux pre doc post ls out' e Hpre He) in H.
    injection H as <- <-.
    destruct (parse_alarms_file_printed doc out' (Raise e) He) as [Ho|[key [Hk Ho]]].
    + left. exact Ho.
    + right. injection Hk as ->. exists key. split; [reflexivity | exact Ho].
Qed.

(** X11. Loading a document, and rendering the table of a list of
    documents, print at most one line: the report of a key that an alarm
    record or a level record lacks, with which they fail.  Nothing is
    printed on success, on a failed check, or when the document lacks the
    key alarms. *)
Theorem at_most_one_line_is_printed :
  (forall doc out r,
      parse_alarms_file doc = (out, r) ->
      (out = [] \/
       exists key, r = Raise (KeyError key) /\
                   out = ["Invalid JSON format - missing mandatory value " ++ repr_str key]) /\
      (forall l, r = Ok l -> out = []) /\
      (forall msg, r = Raise (AssertionError msg) -> out = []) /\
      (DocumentJSON.alarms doc = None -> out = [])) /\
  (forall docs out r,
      alarms_to_csv docs = (out, r) ->
      (out = [] \/
       exists key, r = Raise (KeyError key) /\
                   out = ["Invalid JSON format - missing mandatory value " ++ repr_str key]) /\
      (forall t, r = Ok t -> out = [])).
Proof.
  split.
  - intros doc out r H.
    pose proof (parse_alarms_file_printed doc out r H) as Hp.
    split; [exact Hp|]. split; [|split].
    + intros l ->. destruct Hp as [Hp|[key [Hk _]]]; [exact Hp | discriminate Hk].
    + intros msg ->. destruct Hp as [Hp|[key [Hk _]]]; [exact Hp | discriminate Hk].
    + intro Hn. unfold parse_alarms_file in H. rewrite Hn in H.
      cbn in H. injection H as <- _. reflexivity.
  - intros docs out r H.
    pose proof (alarms_to_csv_printed docs out r H) as Hp.
    split; [exact Hp|].
    intros t ->. destruct Hp as [Hp|[key [Hk _]]]; [exact Hp | discriminate Hk].
Qed.

(** X10. The table of two lists of documents, one after the other, is the
    table of the first followed by the rows of the table of the second,
    under the one header; the table of no document is the header alone. *)
Theorem alarms_to_csv_app
    (docs docs' : list DocumentJSON.t) (out out' : list string) (t t' : string) :
  alarms_to_csv docs = (out, Ok t) ->
  alarms_to_csv docs' = (out', Ok t') ->
  (exists body',
      t' = writerow (map PyStr columns) ++ body' /\
      alarms_to_csv (docs ++ docs') = ([], Ok (t ++ body'))) /\
  alarms_to_csv [] = ([], Ok (writerow (map PyStr columns))).
Proof.
  intros H H'. split; [|reflexivity].
  assert (Ho : out = []).
  { destruct (alarms_to_csv_printed docs out _ H) as [Ho|[key [Hk _]]];
      [exact Ho | discriminate Hk]. }
  assert (Ho' : out' = []).
  { destruct (alarms_to_csv_printed docs' out' _ H') as [Ho'|[key [Hk _]]];
      [exact Ho' | discriminate Hk]. }
  subst out out'.
  destruct (alarms_to_csv_header docs' [] t' H') as [body' ->].
  exists body'. split; [reflexivity|].
  revert H H'. unfold alarms_to_csv. cbn [append]. fold header_text.
  intros H H'. rewrite for_alarms_files_app, H. cbn [io_bind].
  rewrite for_alarms_files_output in H'. rewrite for_alarms_files_output.
  destruct (for_alarms_files docs' EmptyString) as [o [b|e]]; [|discriminate H'].
  injection H' as -> Hb. try apply append_inj_l in Hb. subst b. reflexivity.
Qed.

(** ** The text of the constants *)

Lemma count_newlines_app (s t : string) :
  count_newlines (s ++ t) = (count_newlines s + count_newlines t)%nat.
Proof. induction s as [|c s IH]; cbn; [reflexivity | rewrite IH; lia]. Qed.

Lemma upper_char_newline (c : ascii) :
  Ascii.eqb (upper_char c) newline = Ascii.eqb c newline.
Proof. destruct c as [[] [] [] [] [] [] [] []]; reflexivity. Qed.

Lemma count_newlines_upper (s : string) : count_newlines (upper s) = count_newlines s.
Proof.
  unfold upper. induction s as [|c s IH]; cbn; [reflexivity|].
  rewrite upper_char_newline, IH. reflexivity.
Qed.

Lemma count_newlines_uint (d : Decimal.uint) :
  count_newlines (NilEmpty.string_of_uint d) = O.
Proof. induction d; cbn; auto. Qed.

Lemma count_newlines_str_int (n : Z) : count_newlines (str_int n) = O.
Proof.
  unfold str_int, NilZero.string_of_int, NilZero.string_of_uint.
  destruct (Z.to_int n) as [d|d]; destruct d; cbn; try reflexivity;
    apply count_newlines_uint.
Qed.

Lemma count_newlines_repr_char (quote c : ascii) :
  quote = squote \/ quote = dquote -> count_newlines (repr_char quote c) = O.
Proof.
  intros [->| ->]; destruct c as [[] [] [] [] [] [] [] []]; reflexivity.
Qed.

Lemma count_newlines_repr_chars (quote : ascii) (s : string) :
  quote = squote \/ quote = dquote -> count_newlines (repr_chars quote s) = O.
Proof.
  intro Hq. induction s as [|c s IH]; cbn [repr_chars count_newlines]; [reflexivity|].
  rewrite count_newlines_app, (count_newlines_repr_char quote c Hq), IH. reflexivity.
Qed.

Lemma count_newlines_repr_str (s : string) : count_newlines (repr_str s) = O.
Proof.
  unfold repr_str.
  destruct (contains_char squote s && negb (contains_char dquote s)).
  - change (count_newlines (repr_chars dquote s ++ String dquote EmptyString) = O).
    rewrite count_newlines_app, count_newlines_repr_chars by auto. reflexivity.
  - change (count_newlines (repr_chars squote s ++ String squote EmptyString) = O).
    rewrite count_newlines_app, count_newlines_repr_chars by auto. reflexivity.
Qed.

Lemma count_newlines_join (sep : string) (l : list string) :
  count_newlines sep = O ->
  Forall (fun s => count_newlines s = O) l ->
  count_newlines (join sep l) = O.
Proof.
  intros Hsep H. induction H as [|x l Hx Hl IH]; [reflexivity|].
  destruct l as [|y l]; [exact Hx|].
  change (join sep (x :: y :: l)) with (x ++ sep ++ join sep (y :: l)).
  rewrite !count_newlines_app, Hx, Hsep, IH. reflexivity.
Qed.

Lemma ends_with_newline_app (s : string) :
  ends_with_newline (s ++ String newline EmptyString) = true.
Proof.
  induction s as [|c s IH]; [reflexivity|].
  cbn [append ends_with_newline]. rewrite IH.
  destruct (s ++ String newline EmptyString) eqn:Hs; [|reflexivity].
  destruct s; discriminate Hs.
Qed.

(** ** OID suffixes across alarms *)

Lemma no_dot_uint (d : Decimal.uint) :
  contains_char "." (NilEmpty.string_of_uint d) = false.
Proof. induction d; cbn; auto. Qed.

Lemma no_dot_str_int (n : Z) : contains_char "." (str_int n) = false.
Proof.
  unfold str_int, NilZero.string_of_int, NilZero.string_of_uint.
  destruct (Z.to_int n) as [d|d]; destruct d; cbn; try reflexivity; apply no_dot_uint.
Qed.

Lemma str_int_inj (n n' : Z) : str_int n = str_int n' -> n = n'.
Proof.
  unfold str_int. intro H. apply DecimalZ.to_int_inj.
  assert (Hnil : forall m, Z.to_int m <> Decimal.Pos Decimal.Nil /\
                           Z.to_int m <> Decimal.Neg Decimal.Nil).
  { intro m. destruct m as [|p|p]; cbn; split; try discriminate;
      intro Hp; injection Hp as Hp; exact (DecimalPos.Unsigned.to_uint_nonnil p Hp). }
  destruct (Hnil n) as [H1 H2]. destruct (Hnil n') as [H1' H2'].
  pose proof (NilZero.isi _ H1 H2) as E. pose proof (NilZero.isi _ H1' H2') as E'.
  rewrite H in E. rewrite E in E'. injection E' as E'. exact E'.
Qed.

Lemma split_at_dot (s s' t t' : string) :
  contains_char "." s = false ->
  contains_char "." s' = false ->
  s ++ "." ++ t = s' ++ "." ++ t' ->
  s = s' /\ t = t'.
Proof.
  revert s'. induction s as [|c s IH]; intros [|c' s'] Hs Hs' H; cbn in *.
  - injection H as H. split; [reflexivity | exact H].
  - injection H as Hc _. subst c'. cbn in Hs'. discriminate Hs'.
  - injection H as Hc _. subst c. cbn in Hs. discriminate Hs.
  - injection H as -> H.
    apply orb_false_iff in Hs. apply orb_false_iff in Hs'.
    destruct (IH s' (proj2 Hs) (proj2 Hs') H) as [-> ->]. split; reflexivity.
Qed.

(** X15. With integers for indexes the OID suffix names its alarm and its
    severity: if a level of a validated alarm and a level of another have
    the same OID suffix, the two alarms have the same index and the two
    levels the same ITU code. *)
Theorem oid_suffix_identifies_index_and_severity
    (alarm alarm' : AlarmJSON.t) (out out' : list string) (a a' : Alarm.t)
    (i i' : Z) (k k' : Z) (L L' : AlarmLevel.t) :
  Alarm_init alarm = (out, Ok a) ->
  Alarm_init alarm' = (out', Ok a') ->
  Alarm._index a = PyInt i ->
  Alarm._index a' = PyInt i' ->
  In (k, L) (Alarm._levels a) ->
  In (k', L') (Alarm._levels a') ->
  AlarmLevel._oid L = AlarmLevel._oid L' ->
  i = i' /\ AlarmLevel._itu_severity L = AlarmLevel._itu_severity L'.
Proof.
  intros H H' Hi Hi' Hin Hin' Hoid.
  assert (Hobj : forall alarm out a k L,
             Alarm_init alarm = (out, Ok a) -> In (k, L) (Alarm._levels a) ->
             exists lv sev, L = level_object (Alarm._index a) lv sev).
  { clear. intros alarm out a k L H Hin.
    apply Alarm_init_Ok in H. destruct H as [_ H]. apply Alarm_try_Ok in H.
    destruct H as (n & i & c & lvs & objs & _ & _ & _ & _ & _ & Ht & _ & _ & ->).
    apply traverse_objects in Ht. destruct Ht as [_ ->].
    apply add_levels_entry in Hin. destruct Hin as [[]|[Hin _]].
    apply level_objects_In in Hin. destruct Hin as (lv & sev & _ & _ & ->).
    rewrite add_levels_index. exists lv, sev. reflexivity. }
  destruct (Hobj _ _ _ _ _ H Hin) as (lv & sev & ->).
  destruct (Hobj _ _ _ _ _ H' Hin') as (lv' & sev' & ->).
  rewrite Hi, Hi' in Hoid. cbn [level_object AlarmLevel._oid str] in Hoid.
  destruct (split_at_dot _ _ _ _ (no_dot_str_int i) (no_dot_str_int i') Hoid) as [Hidx Hord].
  apply str_int_inj in Hidx. apply model_state_ordinal_text_inj in Hord.
  subst. split; reflexivity.
Qed.

End AlarmsParser.

(** * The program on the values of [json.load]

    [json.load] yields every string of a document as a unicode object.  The
    validator stores these objects as they are; [len], [lower] and the
    comparison with the names of the tables act on their characters as they
    do on a byte string.  A unicode object is converted to a byte string,
    with the ASCII codec, by [str], by [str.format] for each field it fills
    and by the csv writer for each field of a row: a character of code 128
    or more then raises [UnicodeEncodeError].  A text of this module is the
    sequence of the code points of a unicode object, all below 256. *)

Module Unicode.

(** What a statement may raise here. *)
Inductive raised : Type :=
| Exn (e : exn)
| UnicodeEncodeError.

Inductive outcome (A : Type) : Type :=
| Return (a : A)
| Throw (e : raised).

Arguments Return {A} a.
Arguments Throw {A} e.

Definition bind {A B : Type} (r : outcome A) (f : A -> outcome B) : outcome B :=
  match r with
  | Return a => f a
  | Throw e => Throw e
  end.

Notation "x <~ c1 ;; c2" := (bind c1 (fun x => c2))
  (at level 61, c1 at next level, right associativity).
Notation "c1 ;;~ c2" := (bind c1 (fun _ => c2))
  (at level 61, right associativity).

(** A printing computation: the lines written to standard output, and the
    outcome. *)
Definition io (A : Type) : Type := (list string * outcome A)%type.

Definition io_ret {A : Type} (a : A) : io A := ([], Return a).

Definition io_bind {A B : Type} (m : io A) (f : A -> io B) : io B :=
  match m with
  | (out, Return a) => let (out', r) := f a in ((out ++ out')%list, r)
  | (out, Throw e) => (out, Throw e)
  end.

Definition io_lift {A : Type} (r : outcome A) : io A := ([], r).

Notation "x <~~ c1 ;; c2" := (io_bind c1 (fun x => c2))
  (at level 61, c1 at next level, right associativity).

(** ** Built-ins on unicode objects *)

Fixpoint is_ascii (u : string) : bool :=
  match u with
  | EmptyString => true
  | String c u' => (nat_of_ascii c <? 128)%nat && is_ascii u'
  end.

(** [u.encode('ascii')]: the conversion of a unicode object to a byte
    string. *)
Definition encode (u : string) : outcome string :=
  if is_ascii u then Return u else Throw UnicodeEncodeError.

(** [str(v)] *)
Definition str (v : pyvalue) : outcome string :=
  match v with
  | PyNone => Return "None"
  | PyBool true => Return "True"
  | PyBool false => Return "False"
  | PyInt n => Return (str_int n)
  | PyStr u => encode u
  end.

(** [d[key]] on a record read from JSON. *)
Definition getitem {A : Type} (key : string) (field : option A) : outcome A :=
  match field with
  | Some v => Return v
  | None => Throw (Exn (KeyError key))
  end.

(** [assert cond, msg]: the message is computed when the condition fails. *)
Definition assert (cond : bool) (msg : outcome string) : outcome unit :=
  if cond then Return tt
  else (m <~ msg ;; Throw (Exn (AssertionError m))).

(** [try: body except KeyError: handler] *)
Definition try_except_KeyError {A : Type} (body handler : outcome A) : outcome A :=
  match body with
  | Throw (Exn (KeyError _)) => handler
  | r => r
  end.

(** [d[k]] on a table with string keys. *)
Definition table_getitem {V : Type} (k : string) (d : list (string * V)) : outcome V :=
  match table_get k d with
  | Some v => Return v
  | None => Throw (Exn (KeyError k))
  end.

(** [(prefix + '{}').format(u)] *)
Definition format_end (prefix u : string) : outcome string :=
  b <~ encode u ;;
  Return (prefix ++ b).

(** ** Files

    The text files written, by path; the latest state of a path is the one
    that is read.  Opening a file for writing is taken to succeed, and what
    is written to a file object reaches the file, also when the object is
    dropped by an exception before [close()]. *)
Definition files : Type := list (string * string).

Definition file_content (path : string) (fs : files) : option string :=
  table_get path fs.

(** [open(path, 'w')]: the file is created, or emptied. *)
Definition open_w (path : string) (fs : files) : files :=
  (path, EmptyString) :: fs.

(** [f.write(s)] on the file object opened on [path]. *)
Definition file_write (path s : string) (fs : files) : files :=
  match file_content path fs with
  | Some content => (path, content ++ s) :: fs
  | None => (path, s) :: fs
  end.

(** ** The parser *)

Section Parser.

Variable alarm_severities : severity_codes.

(** [sys.maxint]: an integer beyond it is a [long], whose [repr] ends in L. *)
Variable sys_maxint : Z.

Variable dict_order : list Z -> list Z.

(** [AlarmLevel.__init__(self, parent_alarm, level)] *)
Definition AlarmLevel_init (parent_alarm : Alarm.t) (level : LevelJSON.t)
  : outcome AlarmLevel.t :=
  let name := Alarm._name parent_alarm in
  details <~ getitem "details" (LevelJSON.details level) ;;
  assert (len details <? 256)
    (format_end "Details length was greater than 255 characters in alarm " name) ;;~
  description <~ getitem "description" (LevelJSON.description level) ;;
  assert (len description <? 256)
    (format_end "Description length was greater than 255 characters in alarm " name) ;;~
  cause <~ getitem "cause" (LevelJSON.cause level) ;;
  assert (len cause <? 4096)
    (format_end "Cause length was greater than 4096 characters in alarm " name) ;;~
  effect <~ getitem "effect" (LevelJSON.effect level) ;;
  assert (len effect <? 4096)
    (format_end "Effect length was greater than 4096 characters in alarm " name) ;;~
  action <~ getitem "action" (LevelJSON.action level) ;;
  assert (len action <? 4096)
    (format_end "Action length was greater than 4096 characters in alarm " name) ;;~
  details <~
    try_except_KeyError
      (extended <~ getitem "extended_details" (LevelJSON.extended_details level) ;;
       assert (len extended <? 4096)
         (format_end "Extended details length was greater than 4096 characters in alarm "
                     name) ;;~
       Return extended)
      (Return details) ;;
  description <~
    try_except_KeyError
      (extended <~ getitem "extended_description" (LevelJSON.extended_description level) ;;
       assert (len extended <? 4096)
         (format_end "Extended description length was greater than 4096 characters in alarm "
                     name) ;;~
       Return extended)
      (Return description) ;;
  severity_string <~ getitem "severity" (LevelJSON.severity level) ;;
  let severity := lower severity_string in
  assert (str_in severity (table_keys (itu_severities alarm_severities)))
    (s <~ encode severity_string ;;
     n <~ encode name ;;
     Return ("Severity level (" ++ s ++ ") invalid in alarm " ++ n)) ;;~
  itu_severity <~ table_getitem severity (itu_severities alarm_severities) ;;
  index <~ str (Alarm._index parent_alarm) ;;
  model_state <~ table_getitem severity alarm_model_state ;;
  Return {| AlarmLevel._details := details;
            AlarmLevel._description := description;
            AlarmLevel._cause := cause;
            AlarmLevel._effect := effect;
            AlarmLevel._action := action;
            AlarmLevel._itu_severity := itu_severity;
            AlarmLevel._oid := index ++ "." ++ str_int model_state;
            AlarmLevel._severity_string := severity_string |}.

(** The loop [for level in alarm['levels']] of [Alarm.__init__]. *)
Fixpoint for_levels (levels : list LevelJSON.t)
    (self : Alarm.t) (found_cleared found_non_cleared : bool)
  : outcome (Alarm.t * bool * bool) :=
  match levels with
  | [] => Return (self, found_cleared, found_non_cleared)
  | level :: rest =>
      level_obj <~ AlarmLevel_init self level ;;
      let self := Alarm.setitem_levels self (AlarmLevel._itu_severity level_obj) level_obj in
      if AlarmLevel._itu_severity level_obj =? CLEARED alarm_severities
      then for_levels rest self true found_non_cleared
      else for_levels rest self found_cleared true
  end.

(** The body of the [try] block of [Alarm.__init__]. *)
Definition Alarm_try (alarm : AlarmJSON.t) : outcome Alarm.t :=
  _name <~ getitem "name" (AlarmJSON.name alarm) ;;
  _index <~ getitem "index" (AlarmJSON.index alarm) ;;
  cause <~ getitem "cause" (AlarmJSON.cause alarm) ;;
  assert (str_in (lower cause) valid_causes)
    (c <~ encode cause ;;
     n <~ encode _name ;;
     Return ("Cause (" ++ c ++ ") invalid in alarm " ++ n)) ;;~
  let self := {| Alarm._name := _name; Alarm._index := _index;
                 Alarm._levels := []; Alarm._cause := cause |} in
  levels <~ getitem "levels" (AlarmJSON.levels alarm) ;;
  st <~ for_levels levels self false false ;;
  let '(self, found_cleared, found_non_cleared) := st in
  assert found_cleared
    (n <~ encode _name ;;
     Return ("Alarm " ++ n ++ " missing a cleared severity")) ;;~
  assert found_non_cleared
    (n <~ encode _name ;;
     Return ("Alarm " ++ n ++ " missing any non-cleared severities")) ;;~
  Return self.

(** [Alarm.__init__(self, alarm)]: a [KeyError] is reported on standard
    output and raised again; its key is a byte string of the program. *)
Definition Alarm_init (alarm : AlarmJSON.t) : io Alarm.t :=
  match Alarm_try alarm with
  | Throw (Exn (KeyError key)) =>
      (["Invalid JSON format - missing mandatory value " ++ repr_str key],
       Throw (Exn (KeyError key)))
  | r => io_lift r
  end.

(** The loop [for alarm in alarms] of [parse_alarms_file]. *)
Fixpoint for_alarms (alarms : list AlarmJSON.t) (alarm_list : list Alarm.t)
  : io (list Alarm.t) :=
  match alarms with
  | [] => io_ret alarm_list
  | alarm :: rest =>
      a <~~ Alarm_init alarm ;;
      for_alarms rest (alarm_list ++ [a])%list
  end.

(** [parse_alarms_file(json_file)], from the parsed content of the file. *)
Definition parse_alarms_file (alarms_data : DocumentJSON.t) : io (list Alarm.t) :=
  alarms <~~ io_lift (getitem "alarms" (DocumentJSON.alarms alarms_data)) ;;
  for_alarms alarms [].

(** [repr(n)] for an integer. *)
Definition repr_int (n : Z) : string :=
  if (sys_maxint <? n) || (n <? - sys_maxint - 1) then str_int n ++ "L" else str_int n.

(** [repr(v)]: the literal of a unicode object is that of the byte string
    of the same characters, after a u. *)
Definition repr (v : pyvalue) : string :=
  match v with
  | PyNone => "None"
  | PyBool true => "True"
  | PyBool false => "False"
  | PyInt n => repr_int n
  | PyStr u => "u" ++ repr_str u
  end.

(** [str(tuple(l))] *)
Definition str_tuple (l : list pyvalue) : string :=
  match l with
  | [x] => "(" ++ repr x ++ ",)"
  | _ => "(" ++ join ", " (map repr l) ++ ")"
  end.

(** [render_alarm(alarm)]: [format] converts the name; the tuple is laid out
    with [repr] and needs no conversion. *)
Definition render_alarm (alarm : Alarm.t) : outcome string :=
  let handle_data := [Alarm._index alarm] in
  let handle_data :=
    (handle_data ++ map PyInt (dict_keys dict_order (Alarm._levels alarm)))%list in
  name <~ encode (upper (Alarm._name alarm)) ;;
  Return (name ++ " = " ++ str_tuple handle_data ++ String newline EmptyString).

(** A field of a row handed to the csv writer. *)
Inductive field : Type :=
| Bytes (s : string)
| Int (n : Z)
| Text (u : string).

(** The list [values] written for one level of one alarm: the OID suffix is
    a byte string, built by [str]; the texts are those of the document. *)
Definition values (alarm : Alarm.t) (alarm_level : AlarmLevel.t) : list field :=
  [Bytes (AlarmLevel._oid alarm_level);
   Int (AlarmLevel._itu_severity alarm_level);
   Text (Alarm._name alarm);
   Text (Alarm._cause alarm);
   Text (AlarmLevel._severity_string alarm_level);
   Text (AlarmLevel._description alarm_level);
   Text (AlarmLevel._details alarm_level);
   Text (AlarmLevel._cause alarm_level);
   Text (AlarmLevel._effect alarm_level);
   Text (AlarmLevel._action alarm_level)].

(** The byte string or integer the writer lays out for a field: it applies
    [str] to a field that is not a byte string. *)
Definition field_value (f : field) : outcome pyvalue :=
  match f with
  | Bytes s => Return (PyStr s)
  | Int n => Return (PyInt n)
  | Text u => s <~ encode u ;; Return (PyStr s)
  end.

Fixpoint traverse {A B : Type} (f : A -> outcome B) (l : list A) : outcome (list B) :=
  match l with
  | [] => Return []
  | x :: l' => y <~ f x ;; ys <~ traverse f l' ;; Return (y :: ys)
  end.

(** [writer.writerow(row)]: the text appended to the output, laid out as
    [writerow] above does for byte strings and integers. *)
Definition writer_writerow (row : list field) : outcome string :=
  fields <~ traverse field_value row ;;
  Return (writerow fields).

(** The two inner loops of [alarms_to_csv], on the text written so far. *)
Fixpoint for_alarm_levels (alarm : Alarm.t) (alarm_levels : list AlarmLevel.t)
    (output : string) : outcome string :=
  match alarm_levels with
  | [] => Return output
  | alarm_level :: rest =>
      row <~ writer_writerow (values alarm alarm_level) ;;
      for_alarm_levels alarm rest (output ++ row)
  end.

Fixpoint for_alarm_list (alarm_list : list Alarm.t) (output : string) : outcome string :=
  match alarm_list with
  | [] => Return output
  | alarm :: rest =>
      output <~ for_alarm_levels alarm
                  (dict_itervalues dict_order (Alarm._levels alarm)) output ;;
      for_alarm_list rest output
  end.

(** The loop [for alarm_file in alarms_files]. *)
Fixpoint for_alarms_files (alarms_files : list DocumentJSON.t) (output : string)
  : io string :=
  match alarms_files with
  | [] => io_ret output
  | alarm_file :: rest =>
      alarm_list <~~ parse_alarms_file alarm_file ;;
      output <~~ io_lift (for_alarm_list alarm_list output) ;;
      for_alarms_files rest output
  end.

(** [alarms_to_csv(alarms_files)], from the parsed content of the files. *)
Definition alarms_to_csv (alarms_files : list DocumentJSON.t) : io string :=
  let output := EmptyString in
  row <~~ io_lift (writer_writerow (map Bytes columns)) ;;
  let output := output ++ row in
  for_alarms_files alarms_files output.

(** The loop of [write_constants_file], on the file object [f] opened on
    [constants_file]: the outcome and the files left. *)
Fixpoint for_alarm_details (alarm_details : list Alarm.t) (constants_file : string)
    (fs : files) : outcome unit * files :=
  match alarm_details with
  | [] => (Return tt, fs)
  | alarm :: rest =>
      match render_alarm alarm with
      | Return line =>
          for_alarm_details rest constants_file (file_write constants_file line fs)
      | Throw e => (Throw e, fs)
      end
  end.

(** [write_constants_file(alarm_details, constants_file)] *)
Definition write_constants_file (alarm_details : list Alarm.t) (constants_file : string)
    (fs : files) : outcome unit * files :=
  let fs := open_w constants_file fs in
  for_alarm_details alarm_details constants_file fs.

End Parser.

End Unicode.


(** * Properties of the program on the values of [json.load] *)

(** The texts that the table takes from a level hold ASCII characters
    only. *)
Definition level_is_ascii (alarm_level : AlarmLevel.t) : bool :=
  Unicode.is_ascii (AlarmLevel._severity_string alarm_level) &&
  Unicode.is_ascii (AlarmLevel._description alarm_level) &&
  Unicode.is_ascii (AlarmLevel._details alarm_level) &&
  Unicode.is_ascii (AlarmLevel._cause alarm_level) &&
  Unicode.is_ascii (AlarmLevel._effect alarm_level) &&
  Unicode.is_ascii (AlarmLevel._action alarm_level).

(** The same for an alarm: its name, its cause and its levels. *)
Definition alarm_is_ascii (alarm : Alarm.t) : bool :=
  Unicode.is_ascii (Alarm._name alarm) &&
  Unicode.is_ascii (Alarm._cause alarm) &&
  forallb (fun entry => level_is_ascii (snd entry)) (Alarm._levels alarm).

(** A text without the characters that the csv writer treats apart: the
    NUL character, the comma, the double quote and the newline. *)
Definition csv_plain (s : string) : bool :=
  negb (contains_char zero s) &&
  negb (contains_char ","%char s) &&
  negb (contains_char dquote s) &&
  negb (contains_char newline s).

(** A field of a row of byte strings and integers that is written as it
    is. *)
Definition plain_field (v : pyvalue) : bool :=
  match v with
  | PyStr s => csv_plain s
  | PyInt _ => true
  | _ => false
  end.

Section UnicodeProperties.

Variable alarm_severities : severity_codes.
Variable sys_maxint : Z.
Variable dict_order : list Z -> list Z.
Hypothesis dict_order_perm :
  forall ks : list Z, NoDup ks -> Permutation (dict_order ks) ks.

Lemma encode_Return (u t : string) :
  Unicode.encode u = Unicode.Return t <-> Unicode.is_ascii u = true /\ t = u.
Proof.
  unfold Unicode.encode. destruct (Unicode.is_ascii u); split.
  - intro H. injection H as <-. split; reflexivity.
  - intros [_ ->]. reflexivity.
  - discriminate.
  - intros [H _]. discriminate H.
Qed.

Lemma str_Return (v : pyvalue) (t : string) :
  Unicode.str v = Unicode.Return t -> t = str v.
Proof.
  destruct v as [|[]|n|u]; cbn; try (intro H; injection H as <-; reflexivity).
  intro H. apply encode_Return in H. apply H.
Qed.

Lemma str_Throw (v : pyvalue) (e : Unicode.raised) :
  Unicode.str v = Unicode.Throw e -> e = Unicode.UnicodeEncodeError.
Proof.
  destruct v as [|[]|n|u]; cbn; try discriminate.
  unfold Unicode.encode. destruct (Unicode.is_ascii u); [discriminate|].
  intro H. injection H as <-. reflexivity.
Qed.

Lemma getitem_Return {A : Type} (key : string) (field : option A) (a : A) :
  Unicode.getitem key field = Unicode.Return a -> field = Some a.
Proof. destruct field; cbn; [intro H; injection H as ->; reflexivity | discriminate]. Qed.

Lemma assert_Return (cond : bool) (msg : Unicode.outcome string) (u : unit) :
  Unicode.assert cond msg = Unicode.Return u -> cond = true.
Proof.
  unfold Unicode.assert. destruct cond; [reflexivity|].
  destruct msg; discriminate.
Qed.

(** An optional field that replaces a value when it is present. *)
Lemma try_extended_Return (key : string) (field : option string) (bound : Z)
    (prefix name base r : string) :
  Unicode.try_except_KeyError
    (Unicode.bind (Unicode.getitem key field)
       (fun extended =>
          Unicode.bind (Unicode.assert (len extended <? bound)
                                       (Unicode.format_end prefix name))
            (fun _ => Unicode.Return extended)))
    (Unicode.Return base) = Unicode.Return r ->
  absent_or_below bound field = true /\ r = effective base field.
Proof.
  destruct field as [x|]; cbn.
  - unfold Unicode.assert. destruct (len x <? bound); cbn.
    + intro H. injection H as <-. split; reflexivity.
    + unfold Unicode.format_end, Unicode.encode.
      destruct (Unicode.is_ascii name); cbn; discriminate.
  - intro H. injection H as <-. split; reflexivity.
Qed.

Ltac invert_bind H :=
  match type of H with
  | Unicode.bind ?o _ = Unicode.Return _ =>
      destruct o eqn:?; [cbn [Unicode.bind] in H | discriminate H]
  end.

(** A level that the constructor accepts is one the data model allows, and
    the index of its alarm has a string form. *)
Lemma AlarmLevel_init_Return_valid
    (parent_alarm : Alarm.t) (level : LevelJSON.t) (L : AlarmLevel.t) :
  Unicode.AlarmLevel_init alarm_severities parent_alarm level = Unicode.Return L ->
  level_valid level = true /\
  exists t, Unicode.str (Alarm._index parent_alarm) = Unicode.Return t.
Proof.
  intro H. unfold Unicode.AlarmLevel_init in H.
  repeat invert_bind H.
  repeat match goal with
         | Hg : Unicode.getitem _ _ = Unicode.Return _ |- _ => apply getitem_Return in Hg
         | Ha : Unicode.assert _ _ = Unicode.Return _ |- _ => apply assert_Return in Ha
         | Ht : Unicode.try_except_KeyError _ _ = Unicode.Return _ |- _ =>
             apply try_extended_Return in Ht; destruct Ht as [Ht _]
         end.
  split; [|eexists; reflexivity].
  unfold level_valid, severity_of_level, present_below.
  rewrite str_in_itu_severities in *.
  repeat match goal with Hf : _ = Some _ |- _ => rewrite Hf; clear Hf end.
  repeat match goal with Hb : _ = true |- _ => rewrite Hb; clear Hb end.
  reflexivity.
Qed.

(** On a level that the data model allows the constructor fails only in
    [str(index)]. *)
Lemma AlarmLevel_init_valid
    (parent_alarm : Alarm.t) (level : LevelJSON.t) (sev : severity) :
  level_valid level = true ->
  severity_of_level level = Some sev ->
  Unicode.AlarmLevel_init alarm_severities parent_alarm level =
  Unicode.bind (Unicode.str (Alarm._index parent_alarm))
    (fun _ => Unicode.Return
                (level_object alarm_severities (Alarm._index parent_alarm) level sev)).
Proof.
  unfold level_valid, level_object, severity_of_level, present_below, absent_or_below.
  destruct level as [d de c e a xd xde s].
  cbn -[Z.ltb len lower severity_of_name].
  intros Hv Hs.
  unfold Unicode.AlarmLevel_init, Unicode.bind, Unicode.getitem, Unicode.assert,
    Unicode.try_except_KeyError, Unicode.table_getitem, Unicode.format_end.
  cbn -[table_get str_in table_keys itu_severities alarm_model_state
        severity_of_name Z.ltb len lower Unicode.str Unicode.encode].
  destruct d as [d|]; [|discriminate Hv].
  destruct (len d <? 256); [|discriminate Hv].
  destruct de as [de|]; [|discriminate Hv].
  destruct (len de <? 256); [|discriminate Hv].
  destruct c as [c|]; [|discriminate Hv].
  destruct (len c <? 4096); [|discriminate Hv].
  destruct e as [e|]; [|discriminate Hv].
  destruct (len e <? 4096); [|discriminate Hv].
  destruct a as [a|]; [|discriminate Hv].
  destruct (len a <? 4096); [|discriminate Hv].
  destruct s as [s|]; [|discriminate Hs].
  destruct xd as [xd|]; cbn -[Z.ltb len lower severity_of_name] in Hv;
    [destruct (len xd <? 4096); [|discriminate Hv]|];
    (destruct xde as [xde|]; cbn -[Z.ltb len lower severity_of_name] in Hv;
     [destruct (len xde <? 4096); [|discriminate Hv]|]);
    cbn -[table_get str_in table_keys itu_severities alarm_model_state
          severity_of_name Z.ltb len lower Unicode.str Unicode.encode];
    rewrite ?table_get_itu_severities, ?table_get_alarm_model_state,
      ?str_in_itu_severities, Hs;
    cbn -[Unicode.str str_int];
    destruct (Unicode.str (Alarm._index parent_alarm)) as [t|err] eqn:Ht;
    try reflexivity;
    rewrite (str_Return _ _ Ht); reflexivity.
Qed.

Lemma level_valid_names (level : LevelJSON.t) :
  level_valid level = true -> exists sev, severity_of_level level = Some sev.
Proof.
  unfold level_valid. destruct (severity_of_level level) as [sev|]; [eauto|].
  rewrite andb_false_r. discriminate.
Qed.

(** The constructor accepts a level as it does on byte strings, when the
    index of the alarm has a string form. *)
Lemma AlarmLevel_init_Return
    (parent_alarm : Alarm.t) (level : LevelJSON.t) (L : AlarmLevel.t) :
  Unicode.AlarmLevel_init alarm_severities parent_alarm level = Unicode.Return L <->
  AlarmLevel_init alarm_severities parent_alarm level = Ok L /\
  exists t, Unicode.str (Alarm._index parent_alarm) = Unicode.Return t.
Proof.
  rewrite AlarmLevel_init_Ok. split.
  - intro H. destruct (AlarmLevel_init_Return_valid _ _ _ H) as [Hv [t Ht]].
    destruct (level_valid_names _ Hv) as [sev Hs].
    rewrite (AlarmLevel_init_valid _ _ sev Hv Hs), Ht in H. cbn in H.
    injection H as <-. eauto 6.
  - intros [[Hv [sev [Hs ->]]] [t Ht]].
    rewrite (AlarmLevel_init_valid _ _ sev Hv Hs), Ht. reflexivity.
Qed.


(** ** The alarm validator *)

Lemma for_levels_Return (levels : list LevelJSON.t) (self : Alarm.t) (fc fnc : bool)
    (st : Alarm.t * bool * bool) :
  Unicode.for_levels alarm_severities levels self fc fnc = Unicode.Return st <->
  for_levels alarm_severities levels self fc fnc = Ok st /\
  (levels = [] \/ exists t, Unicode.str (Alarm._index self) = Unicode.Return t).
Proof.
  revert self fc fnc. induction levels as [|level rest IH]; intros self fc fnc.
  - cbn. split.
    + intro H. injection H as <-. split; [reflexivity | left; reflexivity].
    + intros [H _]. injection H as <-. reflexivity.
  - cbn [Unicode.for_levels for_levels]. split.
    + destruct (Unicode.AlarmLevel_init alarm_severities self level) as [o|e] eqn:Ho;
        [|discriminate].
      apply AlarmLevel_init_Return in Ho. destruct Ho as [Ho Henc]. rewrite Ho.
      cbn [Unicode.bind bind].
      destruct (AlarmLevel._itu_severity o =? CLEARED alarm_severities);
        intro H; apply IH in H; destruct H as [H _];
          (split; [exact H | right; exact Henc]).
    + intros [H [Hnil|Henc]]; [discriminate Hnil|].
      destruct (AlarmLevel_init alarm_severities self level) as [o|e] eqn:Ho;
        [|discriminate H].
      rewrite (proj2 (AlarmLevel_init_Return self level o) (conj Ho Henc)).
      cbn [Unicode.bind bind] in *.
      destruct (AlarmLevel._itu_severity o =? CLEARED alarm_severities);
        apply IH; (split; [exact H | right; exact Henc]).
Qed.

Lemma assert_false_Return {B : Type} (msg : Unicode.outcome string)
    (k : unit -> Unicode.outcome B) (b : B) :
  Unicode.bind (Unicode.assert false msg) k <> Unicode.Return b.
Proof. unfold Unicode.assert. destruct msg; discriminate. Qed.

(** A record validates as it does on byte strings, when its index has a
    string form. *)
Lemma Alarm_try_Return (alarm : AlarmJSON.t) (a : Alarm.t) :
  Unicode.Alarm_try alarm_severities alarm = Unicode.Return a <->
  Alarm_try alarm_severities alarm = Ok a /\
  exists t, Unicode.str (Alarm._index a) = Unicode.Return t.
Proof.
  unfold Unicode.Alarm_try, Alarm_try.
  destruct (AlarmJSON.name alarm) as [n|];
    cbn [Unicode.getitem getitem Unicode.bind bind];
    [|split; [discriminate | intros [H _]; discriminate H]].
  destruct (AlarmJSON.index alarm) as [i|];
    cbn [Unicode.getitem getitem Unicode.bind bind];
    [|split; [discriminate | intros [H _]; discriminate H]].
  destruct (AlarmJSON.cause alarm) as [c|];
    cbn [Unicode.getitem getitem Unicode.bind bind];
    [|split; [discriminate | intros [H _]; discriminate H]].
  destruct (str_in (lower c) valid_causes);
    [|split; [intro H; contradiction (assert_false_Return _ _ _ H)
             | intros [H _]; discriminate H]].
  cbn [Unicode.assert assert Unicode.bind bind].
  destruct (AlarmJSON.levels alarm) as [lvs|];
    cbn [Unicode.getitem getitem Unicode.bind bind];
    [|split; [discriminate | intros [H _]; discriminate H]].
  fold (initial_alarm n i c).
  split.
  - destruct (Unicode.for_levels alarm_severities lvs (initial_alarm n i c) false false)
      as [[[self fc] fnc]|e] eqn:Hf; [|discriminate].
    apply for_levels_Return in Hf. destruct Hf as [Hf Henc]. rewrite Hf.
    cbn [Unicode.bind bind].
    destruct fc; [|intro H; contradiction (assert_false_Return _ _ _ H)].
    cbn [Unicode.assert Unicode.bind].
    destruct fnc; [|intro H; contradiction (assert_false_Return _ _ _ H)].
    cbn. intro H. injection H as <-. split; [reflexivity|].
    destruct Henc as [->|Henc]; [cbn in Hf; discriminate Hf|].
    rewrite for_levels_traverse in Hf.
    destruct (traverse (AlarmLevel_init alarm_severities (initial_alarm n i c)) lvs)
      as [objs|e]; [|discriminate Hf].
    cbn in Hf. injection Hf as <- _ _. rewrite add_levels_index. exact Henc.
  - intros [H [t Ht]].
    destruct (for_levels alarm_severities lvs (initial_alarm n i c) false false)
      as [[[self fc] fnc]|e] eqn:Hf; [|discriminate H].
    cbn [bind] in H.
    destruct fc; [|discriminate H]. destruct fnc; [|discriminate H].
    cbn in H. injection H as ->.
    assert (Hi : Alarm._index a = i).
    { rewrite for_levels_traverse in Hf.
      destruct (traverse (AlarmLevel_init alarm_severities (initial_alarm n i c)) lvs)
        as [objs|e]; [|discriminate Hf].
      cbn in Hf. injection Hf as <- _ _. apply add_levels_index. }
    rewrite Hi in Ht.
    rewrite (proj2 (for_levels_Return lvs (initial_alarm n i c) false false (a, true, true))
               (conj Hf (or_intror (ex_intro _ t Ht)))).
    reflexivity.
Qed.

Lemma Alarm_init_Return (alarm : AlarmJSON.t) (out : list string) (a : Alarm.t) :
  Unicode.Alarm_init alarm_severities alarm = (out, Unicode.Return a) <->
  Alarm_init alarm_severities alarm = (out, Ok a) /\
  exists t, Unicode.str (Alarm._index a) = Unicode.Return t.
Proof.
  rewrite Alarm_init_Ok, and_assoc, <- Alarm_try_Return.
  unfold Unicode.Alarm_init, Unicode.io_lift.
  destruct (Unicode.Alarm_try alarm_severities alarm) as [a'|[[key|msg]|]]; split;
    try discriminate; try (intros [_ H]; discriminate H).
  - intro H. injection H as <- <-. split; reflexivity.
  - intros [-> H]. rewrite H. reflexivity.
Qed.

(** ** The loader *)

Lemma for_alarms_Return (alarms : list AlarmJSON.t) (acc l : list Alarm.t)
    (out : list string) :
  Unicode.for_alarms alarm_severities alarms acc = (out, Unicode.Return l) ->
  out = [] /\
  exists objs,
    l = (acc ++ objs)%list /\
    Forall2 (fun alarm a =>
               Unicode.Alarm_init alarm_severities alarm = ([], Unicode.Return a))
            alarms objs.
Proof.
  revert acc out. induction alarms as [|alarm rest IH]; intros acc out.
  - cbn. intro H. injection H as <- <-. split; [reflexivity|].
    exists []. rewrite app_nil_r. split; [reflexivity | constructor].
  - cbn [Unicode.for_alarms].
    destruct (Unicode.Alarm_init alarm_severities alarm) as [o [a|e]] eqn:Ha;
      cbn [Unicode.io_bind]; [|discriminate].
    destruct (Unicode.for_alarms alarm_severities rest (acc ++ [a])) as [o' r] eqn:Hr.
    intro H. injection H as <- ->.
    apply IH in Hr. destruct Hr as [-> [objs [-> Hall]]].
    assert (Ho : o = []).
    { apply Alarm_init_Return in Ha. destruct Ha as [Ha _].
      apply Alarm_init_Ok in Ha. apply Ha. }
    subst o. split; [reflexivity|].
    exists (a :: objs). rewrite <- app_assoc. split; [reflexivity|].
    constructor; assumption.
Qed.

(** A document that loads prints nothing, loads as it does on byte strings,
    and every record of it validates. *)
Lemma parse_alarms_file_Return (alarms_data : DocumentJSON.t) (l : list Alarm.t) :
  snd (Unicode.parse_alarms_file alarm_severities alarms_data) = Unicode.Return l ->
  Unicode.parse_alarms_file alarm_severities alarms_data = ([], Unicode.Return l) /\
  snd (parse_alarms_file alarm_severities alarms_data) = Ok l /\
  exists alarms,
    DocumentJSON.alarms alarms_data = Some alarms /\
    Forall2 (fun alarm a =>
               Unicode.Alarm_init alarm_severities alarm = ([], Unicode.Return a))
            alarms l.
Proof.
  unfold Unicode.parse_alarms_file, parse_alarms_file.
  destruct (DocumentJSON.alarms alarms_data) as [alarms|];
    cbn [Unicode.getitem Unicode.io_lift Unicode.io_bind getitem io_lift io_bind];
    [|discriminate].
  destruct (Unicode.for_alarms alarm_severities alarms []) as [out r] eqn:Hf.
  cbn [snd app]. intros ->.
  apply for_alarms_Return in Hf. destruct Hf as [-> [objs [-> Hall]]].
  split; [reflexivity|]. split; [|exists alarms; split; [reflexivity | exact Hall]].
  rewrite (for_alarms_all alarm_severities alarms objs []); [reflexivity|].
  clear - Hall. induction Hall as [|alarm a alarms objs Ha _ IH]; constructor; [|exact IH].
  apply Alarm_init_Return in Ha. apply Ha.
Qed.

(** ** The table *)

Lemma traverse_field_value_Bytes (l : list string) :
  Unicode.traverse Unicode.field_value (map Unicode.Bytes l) = Unicode.Return (map PyStr l).
Proof. induction l as [|x l IH]; cbn; [reflexivity | rewrite IH; reflexivity]. Qed.

Lemma traverse_writer_header (l : list string) :
  Unicode.writer_writerow (map Unicode.Bytes l) = Unicode.Return (writerow (map PyStr l)).
Proof. unfold Unicode.writer_writerow. rewrite traverse_field_value_Bytes. reflexivity. Qed.

Lemma writer_writerow_values (alarm : Alarm.t) (alarm_level : AlarmLevel.t) :
  Unicode.is_ascii (Alarm._name alarm) = true ->
  Unicode.is_ascii (Alarm._cause alarm) = true ->
  level_is_ascii alarm_level = true ->
  Unicode.writer_writerow (Unicode.values alarm alarm_level) =
  Unicode.Return (writerow (values alarm alarm_level)).
Proof.
  unfold level_is_ascii. intros Hn Hc HL.
  repeat (apply andb_true_iff in HL; destruct HL as [HL ?]).
  unfold Unicode.writer_writerow, Unicode.values, Unicode.encode.
  cbn [Unicode.traverse Unicode.field_value Unicode.bind]. unfold Unicode.encode.
  repeat match goal with Hb : Unicode.is_ascii _ = true |- _ => rewrite Hb; clear Hb end.
  reflexivity.
Qed.

Lemma for_alarm_levels_ascii (alarm : Alarm.t) (alarm_levels : list AlarmLevel.t)
    (output : string) :
  Unicode.is_ascii (Alarm._name alarm) = true ->
  Unicode.is_ascii (Alarm._cause alarm) = true ->
  Forall (fun alarm_level => level_is_ascii alarm_level = true) alarm_levels ->
  Unicode.for_alarm_levels alarm alarm_levels output =
  Unicode.Return (for_alarm_levels alarm alarm_levels output).
Proof.
  intros Hn Hc H. revert output.
  induction H as [|alarm_level rest HL _ IH]; intro output; [reflexivity|].
  cbn [Unicode.for_alarm_levels for_alarm_levels].
  rewrite (writer_writerow_values alarm alarm_level Hn Hc HL). cbn [Unicode.bind].
  apply IH.
Qed.

Lemma dict_itervalues_In {V : Type} (d : pydict V) (v : V) :
  In v (dict_itervalues dict_order d) -> exists k, In (k, v) d.
Proof.
  unfold dict_itervalues. rewrite in_flat_map. intros [k [_ Hin]].
  destruct (dict_get k d) as [v'|] eqn:Hget; [|destruct Hin].
  destruct Hin as [<-|[]]. exists k. apply dict_get_In, Hget.
Qed.

Lemma for_alarm_list_ascii (alarm_list : list Alarm.t) (output : string) :
  Forall (fun alarm => alarm_is_ascii alarm = true) alarm_list ->
  Unicode.for_alarm_list dict_order alarm_list output =
  Unicode.Return (for_alarm_list dict_order alarm_list output).
Proof.
  intro H. revert output. induction H as [|alarm rest Ha _ IH]; intro output; [reflexivity|].
  cbn [Unicode.for_alarm_list for_alarm_list].
  unfold alarm_is_ascii in Ha.
  apply andb_true_iff in Ha. destruct Ha as [Ha HL].
  apply andb_true_iff in Ha. destruct Ha as [Hn Hc].
  rewrite for_alarm_levels_ascii; [cbn [Unicode.bind]; apply IH | exact Hn | exact Hc |].
  apply Forall_forall. intros L Hin. apply dict_itervalues_In in Hin.
  destruct Hin as [k Hin]. rewrite forallb_forall in HL. apply (HL (k, L) Hin).
Qed.

Lemma for_alarms_files_ascii (alarms_files : list DocumentJSON.t)
    (alarm_lists : list (list Alarm.t)) (output : string) :
  Forall2 (fun doc l => snd (Unicode.parse_alarms_file alarm_severities doc) =
                        Unicode.Return l) alarms_files alarm_lists ->
  Forall (fun alarm => alarm_is_ascii alarm = true) (concat alarm_lists) ->
  Unicode.for_alarms_files alarm_severities dict_order alarms_files output =
  ([], Unicode.Return
         (output ++ text_of (map writerow (csv_rows dict_order (concat alarm_lists))))).
Proof.
  intro H. revert output. induction H as [|doc l docs ls Hd _ IH]; intros output Ha.
  - cbn. rewrite append_nil_r. reflexivity.
  - cbn [Unicode.for_alarms_files concat]. cbn [concat] in Ha.
    apply Forall_app in Ha. destruct Ha as [Hl Hls].
    destruct (parse_alarms_file_Return doc l Hd) as [-> _]. cbn [Unicode.io_bind].
    rewrite (for_alarm_list_ascii l output Hl).
    cbn [Unicode.io_lift Unicode.io_bind]. rewrite (IH _ Hls). cbn [app].
    rewrite for_alarm_list_text, csv_rows_app, map_app, text_of_app, append_assoc.
    reflexivity.
Qed.

(** ** Fields that the csv writer leaves as they are *)

Lemma contains_char_uint (c : ascii) (d : Decimal.uint) :
  (nat_of_ascii c <? 48)%nat = true ->
  contains_char c (NilEmpty.string_of_uint d) = false.
Proof.
  intro Hc.
  assert (Hne : forall digit : ascii,
             (48 <=? nat_of_ascii digit)%nat = true -> Ascii.eqb c digit = false).
  { intros digit Hd. apply Ascii.eqb_neq. intros ->.
    apply Nat.ltb_lt in Hc. apply Nat.leb_le in Hd. lia. }
  induction d; cbn [NilEmpty.string_of_uint contains_char]; [reflexivity|..];
    rewrite IHd, Hne; reflexivity.
Qed.

Lemma contains_char_str_int (c : ascii) (n : Z) :
  (nat_of_ascii c <? 45)%nat = true -> contains_char c (str_int n) = false.
Proof.
  intro Hc.
  assert (Hc' : (nat_of_ascii c <? 48)%nat = true).
  { apply Nat.ltb_lt in Hc. apply Nat.ltb_lt. lia. }
  assert (Hminus : Ascii.eqb c "-"%char = false).
  { apply Ascii.eqb_neq. intros ->. discriminate Hc. }
  assert (Hzero : Ascii.eqb c "0"%char = false).
  { apply Ascii.eqb_neq. intros ->. discriminate Hc. }
  unfold str_int, NilZero.string_of_int, NilZero.string_of_uint.
  destruct (Z.to_int n) as [d|d]; destruct d;
    cbn [contains_char]; rewrite ?Hminus, ?Hzero; cbn [orb];
      try reflexivity;
      match goal with
      | |- contains_char c (NilEmpty.string_of_uint ?d) = false =>
          apply contains_char_uint, Hc'
      | _ => idtac
      end.
Qed.

Lemma csv_plain_str_int (n : Z) : csv_plain (str_int n) = true.
Proof.
  unfold csv_plain. rewrite !contains_char_str_int; reflexivity.
Qed.

Lemma csv_plain_text (s : string) :
  csv_plain s = true ->
  c_string s = s /\ csv_quoted s = false /\ csv_data s = s.
Proof.
  unfold csv_plain. induction s as [|c s IH]; [split; [|split]; reflexivity|].
  cbn [contains_char c_string csv_quoted csv_data]. unfold csv_special.
  rewrite (Ascii.eqb_sym c zero), (Ascii.eqb_sym c ","%char),
    (Ascii.eqb_sym c dquote), (Ascii.eqb_sym c newline).
  intro H. repeat (apply andb_true_iff in H; destruct H as [H ?]).
  repeat match goal with
         | Hn : negb _ = true |- _ =>
             apply negb_true_iff, orb_false_iff in Hn; destruct Hn as [? ?]
         end.
  repeat match goal with Hb : Ascii.eqb _ c = false |- _ => rewrite Hb; clear Hb end.
  cbn [orb].
  destruct IH as [-> [-> ->]]; [|split; [|split]; reflexivity].
  repeat match goal with Hb : contains_char _ s = false |- _ => rewrite Hb; clear Hb end.
  reflexivity.
Qed.

Lemma csv_field_plain (v : pyvalue) :
  plain_field v = true -> csv_field false v = str v.
Proof.
  assert (H : forall s, csv_plain s = true -> csv_field false (PyStr s) = s).
  { intros s Hs. destruct (csv_plain_text s Hs) as [Hc [Hq Hd]].
    unfold csv_field. cbn [str]. rewrite Hc, Hq, Hd. reflexivity. }
  destruct v as [|b|n|s]; cbn [plain_field]; try discriminate.
  - intros _. apply (H (str_int n)), csv_plain_str_int.
  - apply H.
Qed.

(** A row of two fields or more, all plain, is written as its fields
    separated by commas and ended by a newline. *)
Lemma writerow_plain (row : list pyvalue) :
  length row <> 1%nat ->
  forallb plain_field row = true ->
  writerow row = join "," (map str row) ++ String newline EmptyString.
Proof.
  intros Hlen H. unfold writerow.
  destruct (Nat.eqb_spec (length row) 1) as [Heq|_]; [contradiction|].
  f_equal. f_equal. apply map_ext_in. intros v Hin.
  rewrite forallb_forall in H. apply csv_field_plain, H, Hin.
Qed.

(** ** The claims on the renderers and on the index *)

(** C8. When every document of the list loads and the names, the causes and
    the texts of the levels hold ASCII characters only, the table is the
    header row OID, ITU_severity, name, cause, severity, description,
    details, cause, effect, action, followed by one row for every level of
    every alarm of every document, each row holding the OID suffix and the
    ITU code of the level, the name and the cause of the alarm, and the
    severity as written, the description, the details, the cause, the effect
    and the action of the level; a row whose fields have no comma, double
    quote, newline or NUL character is written as these fields, separated
    by commas and ended by a newline. *)
Theorem alarms_to_csv_table
    (alarms_files : list DocumentJSON.t) (alarm_lists : list (list Alarm.t)) :
  Forall2 (fun doc l => snd (Unicode.parse_alarms_file alarm_severities doc) =
                        Unicode.Return l) alarms_files alarm_lists ->
  Forall (fun alarm => alarm_is_ascii alarm = true) (concat alarm_lists) ->
  exists rows : list (list pyvalue),
    Unicode.alarms_to_csv alarm_severities dict_order alarms_files =
    ([], Unicode.Return
           (("OID,ITU_severity,name,cause,severity,description,details,cause,effect,action"
             ++ String newline EmptyString)
            ++ text_of (map writerow rows))) /\
    Permutation rows
      (flat_map
         (fun alarm =>
            map (fun entry =>
                   [PyStr (AlarmLevel._oid (snd entry));
                    PyInt (AlarmLevel._itu_severity (snd entry));
                    PyStr (Alarm._name alarm);
                    PyStr (Alarm._cause alarm);
                    PyStr (AlarmLevel._severity_string (snd entry));
                    PyStr (AlarmLevel._description (snd entry));
                    PyStr (AlarmLevel._details (snd entry));
                    PyStr (AlarmLevel._cause (snd entry));
                    PyStr (AlarmLevel._effect (snd entry));
                    PyStr (AlarmLevel._action (snd entry))])
                (Alarm._levels alarm))
         (concat alarm_lists)) /\
    forall row, In row rows ->
                forallb plain_field row = true ->
                writerow row = join "," (map str row) ++ String newline EmptyString.
Proof.
  intros H Ha.
  assert (Hb : Forall2 (fun doc l => snd (parse_alarms_file alarm_severities doc) = Ok l)
                       alarms_files alarm_lists).
  { clear Ha. induction H as [|doc l docs ls Hd _ IH]; constructor; [|exact IH].
    apply (parse_alarms_file_Return doc l Hd). }
  destruct (alarms_to_csv_loaded alarm_severities dict_order dict_order_perm
              alarms_files alarm_lists Hb) as [_ Hperm].
  exists (csv_rows dict_order (concat alarm_lists)).
  split; [|split].
  - unfold Unicode.alarms_to_csv, columns. rewrite traverse_writer_header.
    cbn [Unicode.io_lift Unicode.io_bind].
    rewrite (for_alarms_files_ascii alarms_files alarm_lists _ H Ha). reflexivity.
  - exact Hperm.
  - intros row Hin Hplain. apply writerow_plain; [|exact Hplain].
    apply (Permutation_in _ Hperm) in Hin. apply in_flat_map in Hin.
    destruct Hin as [alarm [_ Hin]]. apply in_map_iff in Hin.
    destruct Hin as [entry [<- _]]. discriminate.
Qed.

Lemma is_ascii_upper (s : string) : Unicode.is_ascii (upper s) = Unicode.is_ascii s.
Proof.
  unfold upper. induction s as [|c s IH]; [reflexivity|].
  cbn [map_string Unicode.is_ascii]. rewrite IH. f_equal.
  destruct c as [[] [] [] [] [] [] [] []]; reflexivity.
Qed.

(** The text of a tuple of two elements or more. *)
Lemma str_tuple_cons (x y : pyvalue) (l : list pyvalue) :
  Unicode.str_tuple sys_maxint (x :: y :: l) =
  "(" ++ Unicode.repr sys_maxint x
      ++ text_of (map (fun v => ", " ++ Unicode.repr sys_maxint v) (y :: l)) ++ ")".
Proof.
  unfold Unicode.str_tuple.
  rewrite (map_cons (Unicode.repr sys_maxint) x), join_cons, map_map, append_assoc.
  reflexivity.
Qed.

Lemma render_alarm_Return (alarm : Alarm.t) :
  Unicode.is_ascii (Alarm._name alarm) = true ->
  Unicode.render_alarm sys_maxint dict_order alarm =
  Unicode.Return
    (upper (Alarm._name alarm) ++ " = "
       ++ Unicode.str_tuple sys_maxint
            (Alarm._index alarm :: map PyInt (dict_keys dict_order (Alarm._levels alarm)))
       ++ String newline EmptyString).
Proof.
  intro H. unfold Unicode.render_alarm, Unicode.encode.
  rewrite is_ascii_upper, H. reflexivity.
Qed.

Lemma render_alarm_Throw (alarm : Alarm.t) :
  Unicode.is_ascii (Alarm._name alarm) = false ->
  Unicode.render_alarm sys_maxint dict_order alarm =
  Unicode.Throw Unicode.UnicodeEncodeError.
Proof.
  intro H. unfold Unicode.render_alarm, Unicode.encode.
  rewrite is_ascii_upper, H. reflexivity.
Qed.

(** C9. For a validated alarm whose name holds ASCII characters only the
    constant renderer produces the line NAME = (index, code_1, ..., code_k)
    ended by a newline, where NAME is the name in upper case, the index is
    written as [repr] writes it, and the codes are the ITU codes of the
    severities that the levels of the record name, each once. *)
Theorem render_alarm_constant
    (alarm : AlarmJSON.t) (out : list string) (a : Alarm.t) :
  Unicode.Alarm_init alarm_severities alarm = (out, Unicode.Return a) ->
  Unicode.is_ascii (Alarm._name a) = true ->
  exists codes : list Z,
    Unicode.render_alarm sys_maxint dict_order a =
    Unicode.Return
      (upper (Alarm._name a) ++ " = (" ++ Unicode.repr sys_maxint (Alarm._index a)
         ++ text_of (map (fun code => ", " ++ Unicode.repr_int sys_maxint code) codes)
         ++ ")" ++ String newline EmptyString) /\
    NoDup codes /\
    codes <> [] /\
    (forall code, In code codes <->
                  exists L, In (code, L) (Alarm._levels a) /\
                            AlarmLevel._itu_severity L = code) /\
    (forall code, In code codes <->
                  exists lvs lv sev,
                    AlarmJSON.levels alarm = Some lvs /\ In lv lvs /\
                    severity_of_level lv = Some sev /\
                    itu_code alarm_severities sev = code).
Proof.
  intros H Hn. apply Alarm_init_Return in H. destruct H as [H _].
  destruct (validated_alarm_keys alarm_severities dict_order dict_order_perm alarm out a H)
    as (Hnd & Hne & Hlevels & Hrecords).
  exists (dict_keys dict_order (Alarm._levels a)).
  split; [|split; [|split; [|split]]]; try assumption.
  rewrite (render_alarm_Return a Hn).
  destruct (dict_keys dict_order (Alarm._levels a)) as [|k ks]; [contradiction Hne; reflexivity|].
  cbn [map]. rewrite str_tuple_cons. cbn [map].
  rewrite !map_map. cbn [Unicode.repr].
  rewrite !append_assoc. reflexivity.
Qed.


(** ** The text of the constants *)

Lemma count_newlines_repr (v : pyvalue) : count_newlines (Unicode.repr sys_maxint v) = O.
Proof.
  destruct v as [|[]|n|s]; cbn [Unicode.repr]; try reflexivity.
  - unfold Unicode.repr_int. destruct ((sys_maxint <? n) || (n <? - sys_maxint - 1)).
    + rewrite count_newlines_app, count_newlines_str_int. reflexivity.
    + apply count_newlines_str_int.
  - rewrite count_newlines_app, count_newlines_repr_str. reflexivity.
Qed.

Lemma count_newlines_str_tuple (l : list pyvalue) :
  count_newlines (Unicode.str_tuple sys_maxint l) = O.
Proof.
  assert (Hj : count_newlines (join ", " (map (Unicode.repr sys_maxint) l)) = O).
  { apply count_newlines_join; [reflexivity|].
    apply Forall_forall. intros s Hin. apply in_map_iff in Hin.
    destruct Hin as [v [<- _]]. apply count_newlines_repr. }
  unfold Unicode.str_tuple. destruct l as [|x [|y l]]; cbv iota.
  - reflexivity.
  - rewrite !count_newlines_app, count_newlines_repr. reflexivity.
  - rewrite !count_newlines_app, Hj. reflexivity.
Qed.

Lemma render_alarm_newlines (alarm : Alarm.t) (t : string) :
  Unicode.render_alarm sys_maxint dict_order alarm = Unicode.Return t ->
  Unicode.is_ascii (Alarm._name alarm) = true /\
  count_newlines t = S (count_newlines (Alarm._name alarm)) /\
  ends_with_newline t = true.
Proof.
  destruct (Unicode.is_ascii (Alarm._name alarm)) eqn:Hn.
  - rewrite (render_alarm_Return alarm Hn). intro H.
    match type of H with Unicode.Return ?line = _ => assert (Ht : t = line) by congruence end.
    clear H. subst t. split; [reflexivity|]. split.
    + rewrite !count_newlines_app, count_newlines_upper, count_newlines_str_tuple.
      cbn. lia.
    + rewrite <- !append_assoc. apply ends_with_newline_app.
  - rewrite (render_alarm_Throw alarm Hn). discriminate.
Qed.


Lemma file_content_write (path s content : string) (fs : Unicode.files) :
  Unicode.file_content path fs = Some content ->
  Unicode.file_content path (Unicode.file_write path s fs) = Some (content ++ s).
Proof.
  intro H. unfold Unicode.file_write. rewrite H.
  unfold Unicode.file_content. cbn [table_get]. rewrite String.eqb_refl. reflexivity.
Qed.

(** The loop over the alarms that render: what it leaves in the file, and
    where it goes on. *)
Lemma for_alarm_details_written
    (alarm_details : list Alarm.t) (lines : list string) (path content : string)
    (fs : Unicode.files) :
  Forall2 (fun alarm line =>
             Unicode.render_alarm sys_maxint dict_order alarm = Unicode.Return line)
          alarm_details lines ->
  Unicode.file_content path fs = Some content ->
  exists fs',
    Unicode.file_content path fs' = Some (content ++ text_of lines) /\
    forall rest,
      Unicode.for_alarm_details sys_maxint dict_order (alarm_details ++ rest) path fs =
      Unicode.for_alarm_details sys_maxint dict_order rest path fs'.
Proof.
  intro H. revert content fs.
  induction H as [|alarm line alarms lines Hr _ IH]; intros content fs Hc.
  - exists fs. cbn. rewrite append_nil_r. split; [exact Hc | reflexivity].
  - destruct (IH (content ++ line) (Unicode.file_write path line fs)
                (file_content_write path line content fs Hc)) as [fs' [Hc' Hrest]].
    exists fs'. split.
    + rewrite Hc'. cbn [text_of fold_right]. rewrite append_assoc. reflexivity.
    + intro rest. cbn [app Unicode.for_alarm_details]. rewrite Hr. apply Hrest.
Qed.

(** X13. The constants file is emptied and then written alarm by alarm.
    When every alarm renders, it holds the constants of the alarms in their
    order, one after the other, and nothing else: as many lines as there
    are alarms when no name has a newline character.  When an alarm does
    not render, the writer ends with the exception of the renderer and the
    file is left with the constants of the alarms before that one. *)
Theorem constants_file_is_written_alarm_by_alarm
    (alarm_details : list Alarm.t) (lines : list string) (constants_file : string)
    (fs : Unicode.files) :
  Forall2 (fun alarm line =>
             Unicode.render_alarm sys_maxint dict_order alarm = Unicode.Return line)
          alarm_details lines ->
  (exists fs',
      Unicode.write_constants_file sys_maxint dict_order alarm_details constants_file fs =
      (Unicode.Return tt, fs') /\
      Unicode.file_content constants_file fs' = Some (text_of lines)) /\
  (Forall (fun alarm => count_newlines (Alarm._name alarm) = O) alarm_details ->
   count_newlines (text_of lines) = length alarm_details) /\
  (forall alarm rest e,
      Unicode.render_alarm sys_maxint dict_order alarm = Unicode.Throw e ->
      exists fs',
        Unicode.write_constants_file sys_maxint dict_order
          (alarm_details ++ alarm :: rest) constants_file fs =
        (Unicode.Throw e, fs') /\
        Unicode.file_content constants_file fs' = Some (text_of lines)).
Proof.
  intro H.
  assert (Hopen : Unicode.file_content constants_file (Unicode.open_w constants_file fs) =
                  Some EmptyString).
  { unfold Unicode.file_content, Unicode.open_w. cbn [table_get].
    rewrite String.eqb_refl. reflexivity. }
  destruct (for_alarm_details_written alarm_details lines constants_file EmptyString
              (Unicode.open_w constants_file fs) H Hopen) as [fs' [Hc Hrest]].
  cbn [append] in Hc.
  split; [|split].
  - exists fs'. split; [|exact Hc].
    unfold Unicode.write_constants_file.
    rewrite <- (app_nil_r alarm_details) at 1. rewrite Hrest. reflexivity.
  - clear fs' Hc Hrest Hopen. intro Hn. revert Hn.
    induction H as [|alarm line alarms lines Hr _ IH]; intro Hn; [reflexivity|].
    inversion Hn as [|? ? Hname Hnames]; subst.
    cbn [text_of fold_right length]. fold (text_of lines).
    rewrite count_newlines_app, (IH Hnames).
    destruct (render_alarm_newlines alarm line Hr) as [_ [-> _]].
    rewrite Hname. reflexivity.
  - intros alarm rest e He. exists fs'. split; [|exact Hc].
    unfold Unicode.write_constants_file. rewrite Hrest.
    cbn [Unicode.for_alarm_details]. rewrite He. reflexivity.
Qed.

(** ** The validator on the two kinds of string *)



End UnicodeProperties.

(** ** The sample environment *)

Lemma insert_sorted_perm (k : Z) (l : list Z) :
  Permutation (Sample.insert_sorted k l) (k :: l).
Proof.
  induction l as [|k' l IH]; cbn; [reflexivity|].
  destruct (k <=? k'); [reflexivity|].
  rewrite IH. apply perm_swap.
Qed.

Lemma ascending_perm (ks : list Z) : NoDup ks -> Permutation (Sample.ascending ks) ks.
Proof.
  intros _. induction ks as [|k ks IH]; cbn; [reflexivity|].
  rewrite insert_sorted_perm. constructor. exact IH.
Qed.

Lemma itu_alarm_tc_distinct : codes_distinct itu_alarm_tc.
Proof. intros s s' H. destruct s, s'; try reflexivity; discriminate H. Qed.

Lemma itu_alarm_tc_apart : cleared_code_apart itu_alarm_tc.
Proof. apply codes_distinct_apart, itu_alarm_tc_distinct. Qed.

(** ** Instances of the claims *)

(** C1 at index 1000: the major level has suffix 1000.5 and the cleared
    level 1000.1. *)
Lemma oid_suffix_witness :
  exists a,
    Alarm_init itu_alarm_tc Sample.major_alarm = ([], Ok a) /\
    map (fun e => AlarmLevel._oid (snd e)) (Alarm._levels a) = ["1000.5"; "1000.1"] /\
    (AlarmJSON.index Sample.major_alarm = Some (Alarm._index a) /\
     forall (code : Z) (L : AlarmLevel.t),
       In (code, L) (Alarm._levels a) ->
       exists sev,
         severity_of_name (lower (AlarmLevel._severity_string L)) = Some sev /\
         AlarmLevel._oid L =
         str (Alarm._index a) ++ "." ++ str_int (model_state_ordinal sev)).
Proof.
  eexists. split; [vm_compute; reflexivity|]. split; [reflexivity|].
  apply (oid_suffix_is_index_dot_model_state itu_alarm_tc Sample.major_alarm []).
  reflexivity.
Defined.


(** C2 as stated fails: a record with two cleared levels and a major level
    validates. *)
Lemma two_cleared_levels_accepted :
  length (filter names_cleared [Sample.level "cleared"; Sample.extended_level "Cleared";
                                Sample.level "major"]) = 2%nat /\
  exists a, Alarm_init itu_alarm_tc Sample.twice_cleared = ([], Ok a).
Proof.
  split; [reflexivity|]. eexists. vm_compute. reflexivity.
Qed.

(** C2 as amended, on two cleared levels alone and on two cleared levels
    with a major level: the second cleared level is the one kept. *)
Lemma two_cleared_levels_witness :
  Alarm_init itu_alarm_tc Sample.only_cleared =
  ([], Raise (AssertionError "Alarm process_fail missing any non-cleared severities")) /\
  exists a lv,
    Alarm_init itu_alarm_tc Sample.twice_cleared = ([], Ok a) /\
    last_cleared [Sample.level "cleared"; Sample.extended_level "Cleared";
                  Sample.level "major"] = Some lv /\
    filter (fun e => is_cleared itu_alarm_tc (snd e)) (Alarm._levels a) =
    [(1, level_object itu_alarm_tc (PyInt 1000) lv cleared)].
Proof.
  split.
  - apply (proj1 (two_cleared_levels itu_alarm_tc Sample.only_cleared
                    "process_fail" (PyInt 1000) "software_error"
                    [Sample.level "cleared"; Sample.level "Cleared"]
                    eq_refl eq_refl eq_refl eq_refl eq_refl eq_refl (le_n 2))).
    reflexivity.
  - apply (proj2 (two_cleared_levels itu_alarm_tc Sample.twice_cleared
                    "process_fail" (PyInt 1000) "software_error"
                    [Sample.level "cleared"; Sample.extended_level "Cleared";
                     Sample.level "major"]
                    eq_refl eq_refl eq_refl eq_refl eq_refl eq_refl (le_n 2)));
      [exact itu_alarm_tc_apart | reflexivity].
Defined.

(** C4 on a major level with both extended fields. *)
Lemma extended_fields_witness :
  let level := Sample.extended_level "major" in
  let L := level_object itu_alarm_tc (PyInt 1000) level major in
  AlarmLevel_init itu_alarm_tc Sample.parent level = Ok L /\
  (AlarmLevel._details L = "The process has failed and was not restarted" /\
   nth_error (values Sample.parent L) 6 =
   Some (PyStr "The process has failed and was not restarted") /\
   AlarmLevel_init itu_alarm_tc Sample.parent (with_details "Other details" level) = Ok L) /\
  (AlarmLevel._description L = "Process failure, no restart" /\
   nth_error (values Sample.parent L) 5 = Some (PyStr "Process failure, no restart") /\
   AlarmLevel_init itu_alarm_tc Sample.parent (with_description "Other" level) = Ok L) /\
  length (values Sample.parent L) = 10%nat.
Proof.
  cbv zeta.
  destruct (extended_fields_replace itu_alarm_tc Sample.parent
              (Sample.extended_level "major")
              (level_object itu_alarm_tc (PyInt 1000) (Sample.extended_level "major") major)
              Sample.parent eq_refl) as [Hd [Hde Hlen]].
  split; [reflexivity|].
  destruct (Hd _ eq_refl) as (Hd1 & Hd2 & Hd3).
  destruct (Hde _ eq_refl) as (He1 & He2 & He3).
  split; [split; [exact Hd1 | split; [exact Hd2 | apply Hd3; reflexivity]]|].
  split; [split; [exact He1 | split; [exact He2 | apply He3; reflexivity]]|].
  exact Hlen.
Defined.



(** The causes of the examples: both spellings validate. *)
Example cause_spellings :
  (exists a, Alarm_init itu_alarm_tc
               (Sample.alarm_of (Some (PyInt 1000)) "Software_Error"
                                [Sample.level "cleared"; Sample.level "major"]) =
             ([], Ok a)) /\
  (exists a, Alarm_init itu_alarm_tc
               (Sample.alarm_of (Some (PyInt 1000)) "software_error"
                                [Sample.level "cleared"; Sample.level "major"]) =
             ([], Ok a)).
Proof. split; eexists; vm_compute; reflexivity. Qed.


(** ** Instances of the further properties *)



(** X3 on an alarm whose second level names the severity Fatal, and on one
    whose second level has no severity. *)
Lemma first_invalid_level_witness :
  Alarm_init itu_alarm_tc Sample.fatal_alarm =
  ([], Raise (AssertionError "Severity level (Fatal) invalid in alarm process_fail")) /\
  Alarm_init itu_alarm_tc Sample.keyless_alarm =
  (["Invalid JSON format - missing mandatory value 'severity'"],
   Raise (KeyError "severity")).
Proof.
  split.
  - apply (first_invalid_level_decides itu_alarm_tc Sample.fatal_alarm
             "process_fail" (PyInt 1000) "software_error"
             [Sample.level "cleared"] (Sample.level "Fatal") [Sample.level "major"]
             (AssertionError "Severity level (Fatal) invalid in alarm process_fail")
             eq_refl eq_refl eq_refl eq_refl eq_refl eq_refl eq_refl).
  - apply (first_invalid_level_decides itu_alarm_tc Sample.keyless_alarm
             "process_fail" (PyInt 1000) "software_error"
             [Sample.level "cleared"] Sample.level_without_severity [Sample.level "major"]
             (KeyError "severity")
             eq_refl eq_refl eq_refl eq_refl eq_refl eq_refl eq_refl).
Defined.



(** X6 on the record with two cleared levels and a major one: two levels
    are kept. *)
Lemma validated_alarm_levels_witness :
  exists a,
    Alarm_init itu_alarm_tc Sample.twice_cleared = ([], Ok a) /\
    length (Alarm._levels a) = 2%nat /\
    NoDup (map fst (Alarm._levels a)) /\
    length (filter (fun e => AlarmLevel._itu_severity (snd e) =? 1) (Alarm._levels a))
    = 1%nat.
Proof.
  eexists. split; [vm_compute; reflexivity|]. split; [reflexivity|].
  destruct (validated_alarm_levels itu_alarm_tc Sample.twice_cleared [] _ eq_refl)
    as (Hnd & _ & Hone & _).
  split; [exact Hnd | exact Hone].
Defined.

(** X7 on the record with two cleared levels: the second one is kept, and
    no minor level. *)
Lemma last_level_witness :
  exists a,
    Alarm_init itu_alarm_tc Sample.twice_cleared = ([], Ok a) /\
    dict_get 1 (Alarm._levels a) =
    Some (level_object itu_alarm_tc (PyInt 1000) (Sample.extended_level "Cleared") cleared) /\
    dict_get 5 (Alarm._levels a) = None.
Proof.
  eexists. split; [vm_compute; reflexivity|].
  split.
  - apply (last_level_of_a_severity_is_kept itu_alarm_tc Sample.twice_cleared [] _ _
             itu_alarm_tc_distinct eq_refl eq_refl cleared).
  - apply (last_level_of_a_severity_is_kept itu_alarm_tc Sample.twice_cleared [] _ _
             itu_alarm_tc_distinct eq_refl eq_refl minor).
Defined.

(** X8 on the cleared level of the alarm of index 1000. *)
Lemma full_oid_witness :
  exists a L,
    Alarm_init itu_alarm_tc Sample.alarm = ([], Ok a) /\
    In (1, L) (Alarm._levels a) /\
    full_alarm_oid (AlarmLevel._oid L) = "1.3.6.1.2.1.118.1.1.2.1.3.0.1000.1" /\
    (1 = 1 /\ L = L).
Proof.
  do 2 eexists. split; [vm_compute; reflexivity|].
  split; [left; reflexivity|]. split; [reflexivity|].
  eapply (full_oid_identifies_level itu_alarm_tc Sample.alarm [] _ eq_refl);
    [left; reflexivity | left; reflexivity | reflexivity].
Defined.


(** X10 on the sample document, twice. *)
Lemma alarms_to_csv_app_witness :
  exists t,
    alarms_to_csv itu_alarm_tc Sample.ascending [Sample.document] = ([], Ok t) /\
    ((exists body',
         t = writerow (map PyStr columns) ++ body' /\
         alarms_to_csv itu_alarm_tc Sample.ascending
           ([Sample.document] ++ [Sample.document]) = ([], Ok (t ++ body'))) /\
     alarms_to_csv itu_alarm_tc Sample.ascending [] =
     ([], Ok (writerow (map PyStr columns)))).
Proof.
  eexists. split; [vm_compute; reflexivity|].
  eapply (alarms_to_csv_app itu_alarm_tc Sample.ascending
            [Sample.document] [Sample.document] [] []);
    vm_compute; reflexivity.
Defined.

(** X11 on a document whose second record has a level without severity. *)
Lemma printed_witness :
  parse_alarms_file itu_alarm_tc Sample.keyless_document =
  (["Invalid JSON format - missing mandatory value 'severity'"],
   Raise (KeyError "severity")) /\
  (["Invalid JSON format - missing mandatory value 'severity'"] = [] \/
   exists key,
     @Raise (list Alarm.t) (KeyError "severity") = Raise (KeyError key) /\
     ["Invalid JSON format - missing mandatory value 'severity'"] =
     ["Invalid JSON format - missing mandatory value " ++ repr_str key]).
Proof.
  split; [vm_compute; reflexivity|].
  apply (proj1 (proj1 (at_most_one_line_is_printed itu_alarm_tc Sample.ascending)
                  Sample.keyless_document _ _ eq_refl)).
Defined.

(** X15 on the cleared levels of two alarms of index 1000. *)
Lemma oid_suffix_identifies_witness :
  exists a a' L L',
    Alarm_init itu_alarm_tc Sample.alarm = ([], Ok a) /\
    Alarm_init itu_alarm_tc Sample.major_alarm = ([], Ok a') /\
    In (1, L) (Alarm._levels a) /\
    In (1, L') (Alarm._levels a') /\
    AlarmLevel._oid L = "1000.1" /\
    AlarmLevel._oid L' = "1000.1" /\
    (1000 = 1000 /\ AlarmLevel._itu_severity L = AlarmLevel._itu_severity L').
Proof.
  do 4 eexists. split; [vm_compute; reflexivity|]. split; [vm_compute; reflexivity|].
  split; [left; reflexivity|]. split; [right; left; reflexivity|].
  split; [reflexivity|]. split; [reflexivity|].
  eapply (oid_suffix_identifies_index_and_severity itu_alarm_tc
            Sample.alarm Sample.major_alarm [] [] _ _ 1000 1000 1 1);
    [reflexivity | reflexivity | reflexivity | reflexivity
     | left; reflexivity | right; left; reflexivity | reflexivity].
Defined.

(** ** Instances on the values of [json.load] *)

(** A document that loads and has a level whose details hold an accented
    letter: the csv writer raises where the table was to be returned. *)
Lemma csv_writer_refuses_non_ascii :
  (exists l, Unicode.parse_alarms_file itu_alarm_tc Sample.accented_document =
             ([], Unicode.Return l)) /\
  Unicode.alarms_to_csv itu_alarm_tc Sample.ascending [Sample.accented_document] =
  ([], Unicode.Throw Unicode.UnicodeEncodeError).
Proof. split; [eexists|]; vm_compute; reflexivity. Qed.

(** C8 on the sample document: the header and four rows. *)
Lemma alarms_to_csv_table_witness :
  Unicode.alarms_to_csv itu_alarm_tc Sample.ascending [Sample.document] =
  ([], Unicode.Return
         (text_of
            (map (fun line => line ++ String newline EmptyString)
               ["OID,ITU_severity,name,cause,severity,description,details,cause,effect,action";
                "1000.1,1,process_fail,software_error,cleared,Process failure,The process has failed,The process crashed,Calls are not processed,Restart the process";
                "1000.6,3,process_fail,software_error,critical,Process failure,The process has failed,The process crashed,Calls are not processed,Restart the process";
                "1000.1,1,process_fail,Software_Error,cleared,Process failure,The process has failed,The process crashed,Calls are not processed,Restart the process";
                "1000.5,4,process_fail,Software_Error,MAJOR,Process failure,The process has failed,The process crashed,Calls are not processed,Restart the process"]))) /\
  exists l rows,
    snd (Unicode.parse_alarms_file itu_alarm_tc Sample.document) = Unicode.Return l /\
    Forall (fun alarm => alarm_is_ascii alarm = true) (concat [l]) /\
    Unicode.alarms_to_csv itu_alarm_tc Sample.ascending [Sample.document] =
    ([], Unicode.Return
           (("OID,ITU_severity,name,cause,severity,description,details,cause,effect,action"
             ++ String newline EmptyString)
            ++ text_of (map writerow rows))) /\
    length rows = 4%nat /\
    forall row, In row rows ->
                forallb plain_field row = true ->
                writerow row = join "," (map str row) ++ String newline EmptyString.
Proof.
  split; [vm_compute; reflexivity|].
  assert (Hl : exists l,
             snd (Unicode.parse_alarms_file itu_alarm_tc Sample.document) =
             Unicode.Return l /\
             Forall (fun alarm => alarm_is_ascii alarm = true) (concat [l])).
  { eexists. split; [vm_compute; reflexivity|].
    repeat constructor. }
  destruct Hl as [l [Hl Ha]].
  destruct (alarms_to_csv_table itu_alarm_tc Sample.ascending ascending_perm
              [Sample.document] [l]) as [rows [Htext [Hperm Hplain]]].
  - constructor; [exact Hl | constructor].
  - exact Ha.
  - exists l, rows. split; [exact Hl|]. split; [exact Ha|]. split; [exact Htext|].
    split; [|exact Hplain].
    rewrite (Permutation_length Hperm).
    vm_compute in Hl. injection Hl as <-. reflexivity.
Defined.

(** A record with an accented letter in its name validates, and the
    constant renderer raises on the Alarm. *)
Lemma render_alarm_refuses_non_ascii_name :
  exists a,
    Unicode.Alarm_init itu_alarm_tc Sample.accented_alarm = ([], Unicode.Return a) /\
    Unicode.render_alarm Sample.maxint Sample.ascending a =
    Unicode.Throw Unicode.UnicodeEncodeError.
Proof. eexists. split; [vm_compute; reflexivity|]. vm_compute. reflexivity. Qed.

(** C9 on the alarm of index 1000 with a cleared and a critical level. *)
Lemma render_alarm_constant_witness :
  exists a,
    Unicode.Alarm_init itu_alarm_tc Sample.alarm = ([], Unicode.Return a) /\
    Unicode.is_ascii (Alarm._name a) = true /\
    Unicode.render_alarm Sample.maxint Sample.ascending a =
    Unicode.Return ("PROCESS_FAIL = (1000, 1, 3)" ++ String newline EmptyString) /\
    (exists a',
        Unicode.Alarm_init itu_alarm_tc (with_index (Some (PyStr "seven")) Sample.alarm) =
        ([], Unicode.Return a') /\
        Unicode.render_alarm Sample.maxint Sample.ascending a' =
        Unicode.Return ("PROCESS_FAIL = (u'seven', 1, 3)" ++ String newline EmptyString)) /\
    exists codes : list Z,
      Unicode.render_alarm Sample.maxint Sample.ascending a =
      Unicode.Return
        (upper (Alarm._name a) ++ " = (" ++ Unicode.repr Sample.maxint (Alarm._index a)
           ++ text_of (map (fun code => ", " ++ Unicode.repr_int Sample.maxint code) codes)
           ++ ")" ++ String newline EmptyString) /\
      NoDup codes /\
      codes <> [] /\
      (forall code, In code codes <->
                    exists L, In (code, L) (Alarm._levels a) /\
                              AlarmLevel._itu_severity L = code) /\
      (forall code, In code codes <->
                    exists lvs lv sev,
                      AlarmJSON.levels Sample.alarm = Some lvs /\ In lv lvs /\
                      severity_of_level lv = Some sev /\ itu_code itu_alarm_tc sev = code).
Proof.
  eexists. split; [vm_compute; reflexivity|]. split; [vm_compute; reflexivity|].
  split; [vm_compute; reflexivity|].
  split; [eexists; split; [vm_compute; reflexivity|]; vm_compute; reflexivity|].
  apply (render_alarm_constant itu_alarm_tc Sample.maxint Sample.ascending ascending_perm
           Sample.alarm []); reflexivity.
Defined.

(** The constant of an alarm whose index is a string, and of one whose
    index is beyond [sys.maxint]. *)
Example render_alarm_indexes :
  forall v line,
    In (v, line) [(PyStr "seven", "PROCESS_FAIL = (u'seven', 1, 3)");
                  (PyInt (2 ^ 63), "PROCESS_FAIL = (9223372036854775808L, 1, 3)");
                  (PyBool true, "PROCESS_FAIL = (True, 1, 3)");
                  (PyNone, "PROCESS_FAIL = (None, 1, 3)")] ->
    exists a,
      Unicode.Alarm_init itu_alarm_tc (with_index (Some v) Sample.alarm) =
      ([], Unicode.Return a) /\
      Unicode.render_alarm Sample.maxint Sample.ascending a =
      Unicode.Return (line ++ String newline EmptyString).
Proof.
  intros v line [H|[H|[H|[H|[]]]]]; injection H as <- <-;
    eexists; (split; [vm_compute; reflexivity|]); vm_compute; reflexivity.
Qed.



(** Index values: zero, a negative integer, null, a boolean, a string. *)
Example index_values :
  forall v suffixes,
    In (v, suffixes) [(PyInt 0, ["0.1"; "0.6"]);
                      (PyInt (-5), ["-5.1"; "-5.6"]);
                      (PyNone, ["None.1"; "None.6"]);
                      (PyBool false, ["False.1"; "False.6"]);
                      (PyStr "seven", ["seven.1"; "seven.6"])] ->
    exists a,
      Unicode.Alarm_init itu_alarm_tc (with_index (Some v) Sample.alarm) =
      ([], Unicode.Return a) /\
      map (fun e => AlarmLevel._oid (snd e)) (Alarm._levels a) = suffixes.
Proof.
  intros v suffixes [H|[H|[H|[H|[H|[]]]]]]; injection H as <- <-;
    eexists; (split; [vm_compute; reflexivity|]); vm_compute; reflexivity.
Qed.


(** X13 on the two alarms of the sample document, and on the same followed
    by the Alarm with an accented name and by a fourth: the file is left
    with the first two constants. *)
Lemma constants_file_witness :
  exists l a lines,
    snd (Unicode.parse_alarms_file itu_alarm_tc Sample.document) = Unicode.Return l /\
    Unicode.Alarm_init itu_alarm_tc Sample.accented_alarm = ([], Unicode.Return a) /\
    lines = ["PROCESS_FAIL = (1000, 1, 3)" ++ String newline EmptyString;
             "PROCESS_FAIL = (1000, 1, 4)" ++ String newline EmptyString] /\
    Forall2 (fun alarm line =>
               Unicode.render_alarm Sample.maxint Sample.ascending alarm =
               Unicode.Return line) l lines /\
    (exists fs',
        Unicode.write_constants_file Sample.maxint Sample.ascending l
          "alarm_constants.py" [("alarm_constants.py", "OLD = (1, 1, 3)")] =
        (Unicode.Return tt, fs') /\
        Unicode.file_content "alarm_constants.py" fs' = Some (text_of lines)) /\
    count_newlines (text_of lines) = 2%nat /\
    (exists fs',
        Unicode.write_constants_file Sample.maxint Sample.ascending
          (l ++ a :: l) "alarm_constants.py" [("alarm_constants.py", "OLD = (1, 1, 3)")] =
        (Unicode.Throw Unicode.UnicodeEncodeError, fs') /\
        Unicode.file_content "alarm_constants.py" fs' = Some (text_of lines)).
Proof.
  do 3 eexists. split; [vm_compute; reflexivity|]. split; [vm_compute; reflexivity|].
  split; [reflexivity|].
  assert (Hr : Forall2 (fun alarm line =>
                          Unicode.render_alarm Sample.maxint Sample.ascending alarm =
                          Unicode.Return line)
                 (match snd (Unicode.parse_alarms_file itu_alarm_tc Sample.document) with
                  | Unicode.Return l => l
                  | Unicode.Throw _ => []
                  end)
                 ["PROCESS_FAIL = (1000, 1, 3)" ++ String newline EmptyString;
                  "PROCESS_FAIL = (1000, 1, 4)" ++ String newline EmptyString]).
  { constructor; [vm_compute; reflexivity|]. constructor; [vm_compute; reflexivity|].
    constructor. }
  split; [exact Hr|].
  destruct (constants_file_is_written_alarm_by_alarm Sample.maxint Sample.ascending
              _ _ "alarm_constants.py" [("alarm_constants.py", "OLD = (1, 1, 3)")] Hr)
    as [Hall [Hlines Hfail]].
  split; [exact Hall|]. split; [apply Hlines; repeat constructor|].
  apply Hfail. vm_compute. reflexivity.
Defined.

